(** * MultipleReadPropertyForeign: the point-list reader of bacpypes' samples

    A shallow embedding of [samples/MultipleReadPropertyForeign.py]: the
    application [ReadPointListApplication] (a queue of points, read one at a
    time), the recurring task [PrairieDog] (polls the foreign-device
    registration and starts the reads), and [main].

    Python semantics are those of Python 3: [/] on two integers is true
    division and yields a float (binary64, modelled by Rocq's primitive
    floats); under Python 2 the same expression is floor division.

    The program mutates one application object, one task object and the
    state of [bacpypes.core]; they are gathered in the record [World] and
    every method is a function on it.  A method that can raise returns a
    [result].

    The loop of the library is followed in two ways.  [loop] serves the
    work in one fixed order and covers the runs in which the registration
    monitor is not due again while reads are pending.  [Interleaved.exec],
    at the end of the file, takes the order of polls, completions and
    posted calls from a list of events, installs the recurring task again
    after every tick and goes on after an exception, as the library
    does.  Every state [loop] reaches is reached by [Interleaved.exec]
    under some order of events ([loop_is_an_order_of_events]). *)

From Stdlib Require Import String Ascii ZArith Bool Arith Lia List.
From Stdlib Require Import Floats.PrimFloat Numbers.Cyclic.Int63.Uint63.
Import ListNotations.

Set Implicit Arguments.

(** ** Python results *)

Inductive PyExc : Type :=
| TypeError (msg : string)
| ValueError (msg : string)
| ZeroDivisionError
| DecodingError (msg : string).

Inductive result (A : Type) : Type :=
| Return (a : A)
| Raise (e : PyExc).

Arguments Return {A} a.
Arguments Raise {A} e.

Definition bind {A B : Type} (r : result A) (k : A -> result B) : result B :=
  match r with
  | Return a => k a
  | Raise e => Raise e
  end.

Notation "x <- r ;; k" := (bind r (fun x => k))
  (at level 61, r at next level, right associativity).

(** ** Python numbers used by the decay counter *)

Module PyNum.

(** [float(z)], exact for [|z| <= 2^53]. *)
Definition float_of_Z (z : Z) : float :=
  if (z <? 0)%Z
  then PrimFloat.opp (PrimFloat.of_uint63 (Uint63.of_Z (- z)))
  else PrimFloat.of_uint63 (Uint63.of_Z z).

(** [a / b] on two Python 3 integers: true division. *)
Definition truediv (a b : Z) : result float :=
  if (b =? 0)%Z then Raise ZeroDivisionError
  else Return (PrimFloat.div (float_of_Z a) (float_of_Z b)).

(** [x - n] and [x == n] with a float on the left and an int on the right. *)
Definition sub_int (x : float) (n : Z) : float := PrimFloat.sub x (float_of_Z n).
Definition eq_int (x : float) (n : Z) : bool := PrimFloat.eqb x (float_of_Z n).

End PyNum.

(** ** Data of the protocol stack

    The classes below belong to the bacpypes library, which the sample
    imports; only the attributes the sample reads are kept. *)

(** An entry of [point_list]: [(addr, obj_id, prop_id)]. *)
Definition Point : Type := (string * string * string)%type.

Inductive Address : Type := MkAddress (addr : string).

(** The value of an [ObjectIdentifier]: [(object type, instance)]. *)
Definition ObjectId : Type := (string * Z)%type.

(** Modelled from the spec: the datatype classes that [get_datatype] returns
    are not in the sample.  [Unsigned] is the primitive class the sample
    names, [ArrayOf s] is a subclass of [Array] whose class attribute
    [subtype] is [s], and [OtherClass] stands for every other class of the
    registry (primitive or constructed, not a subclass of [Array]). *)
Inductive Datatype : Type :=
| Unsigned
| OtherClass (name : string)
| ArrayOf (subtype : Datatype).

(** [issubclass(datatype, Array)] *)
Definition issubclass_Array (datatype : Datatype) : bool :=
  match datatype with
  | ArrayOf _ => true
  | _ => false
  end.

Record ReadPropertyRequest : Type := MkRequest {
  req_objectIdentifier : ObjectId;
  req_propertyIdentifier : string;
  pduDestination : Address
}.

Section Sample.

(** The encoded property value of an acknowledgement ([Any]), the Python
    values [cast_out] produces, and the error objects of the stack. *)
Variables (Any PyValue ErrorPDU : Type).

(** [ObjectIdentifier(obj_id).value]: the text form resolved to the
    structured identifier, for point lists whose texts parse.  The texts
    that raise are in [Interleaved.next_request]. *)
Variable ObjectIdentifier_value : string -> ObjectId.

(** [bacpypes.object.get_datatype]: the registry, [None] when the pair is
    unknown. *)
Variable get_datatype : string -> string -> option Datatype.

(** [Any.cast_out]: decodes the payload as the given class, or raises. *)
Variable cast_out : Any -> Datatype -> result PyValue.

(** The acknowledgement of a read ([ReadPropertyACK]). *)
Record ReadPropertyACK : Type := MkACK {
  objectIdentifier : ObjectId;
  propertyIdentifier : string;
  propertyArrayIndex : option Z;
  propertyValue : Any
}.

(** The bound methods handed to the core and to an IOCB. *)
Inductive DeferredFn : Type := Fn_next_request.
Inductive Callback : Type := Cb_complete_request.

Record IOCB : Type := MkIOCB {
  ioRequest : ReadPropertyRequest;
  ioCallback : list Callback;
  ioResponse : option ReadPropertyACK;
  ioError : option ErrorPDU
}.

(** An element of [response_values]: the list holds decoded values and
    error objects side by side. *)
Inductive Outcome : Type :=
| DecodedValue (value : PyValue)
| ProtocolError (err : ErrorPDU).

(** What one turn of the event loop did. *)
Inductive Label : Type :=
| LPoll (status : Z)
| LDeferred (fn : DeferredFn)
| LCompletion (iocb : IOCB).

(** ** The state the program runs on *)

Record World : Type := MkWorld {
  (* ReadPointListApplication *)
  point_queue : list Point;
  response_values : list Outcome;
  (* this_application.bip.registrationStatus, written by the stack *)
  registrationStatus : Z;
  (* PrairieDog *)
  decay : float;
  task_installed : bool;
  (* bacpypes.core *)
  running : bool;
  deferred_fns : list DeferredFn;
  (* the stack: IOCBs handed to request_io and not yet completed *)
  in_flight : list IOCB;
  (* sys.stderr *)
  stderr : list string;
  (* history: every request handed to request_io, oldest first; number of
     process_task calls; number of completions delivered; the turns of
     the event loop, oldest first *)
  requests_sent : list ReadPropertyRequest;
  polls : nat;
  completions : nat;
  trace : list Label
}.

Definition set_point_queue (q : list Point) (w : World) : World :=
  MkWorld q (response_values w) (registrationStatus w) (decay w)
    (task_installed w) (running w) (deferred_fns w) (in_flight w) (stderr w)
    (requests_sent w) (polls w) (completions w) (trace w).

Definition set_decay (d : float) (w : World) : World :=
  MkWorld (point_queue w) (response_values w) (registrationStatus w) d
    (task_installed w) (running w) (deferred_fns w) (in_flight w) (stderr w)
    (requests_sent w) (polls w) (completions w) (trace w).

(** [self.response_values.append(x)] *)
Definition response_values_append (x : Outcome) (w : World) : World :=
  MkWorld (point_queue w) (response_values w ++ [x]) (registrationStatus w)
    (decay w) (task_installed w) (running w) (deferred_fns w) (in_flight w)
    (stderr w) (requests_sent w) (polls w) (completions w) (trace w).

(** [sys.stderr.write(s)] *)
Definition stderr_write (s : string) (w : World) : World :=
  MkWorld (point_queue w) (response_values w) (registrationStatus w)
    (decay w) (task_installed w) (running w) (deferred_fns w) (in_flight w)
    (stderr w ++ [s]) (requests_sent w) (polls w) (completions w) (trace w).

(** Modelled from the spec: [bacpypes.core.stop] is not in the sample.  It
    signals the event loop to stop. *)
Definition stop (w : World) : World :=
  MkWorld (point_queue w) (response_values w) (registrationStatus w)
    (decay w) (task_installed w) false (deferred_fns w) (in_flight w)
    (stderr w) (requests_sent w) (polls w) (completions w) (trace w).

(** Modelled from the spec: [bacpypes.core.deferred] is not in the sample.
    It posts a continuation to the loop's ready queue and does not call
    it. *)
Definition deferred (fn : DeferredFn) (w : World) : World :=
  MkWorld (point_queue w) (response_values w) (registrationStatus w)
    (decay w) (task_installed w) (running w) (deferred_fns w ++ [fn])
    (in_flight w) (stderr w) (requests_sent w) (polls w) (completions w) (trace w).

(** Modelled from the spec: [RecurringTask.install_task] is not in the
    sample.  It activates the recurring tick. *)
Definition install_task (w : World) : World :=
  MkWorld (point_queue w) (response_values w) (registrationStatus w)
    (decay w) true (running w) (deferred_fns w) (in_flight w) (stderr w)
    (requests_sent w) (polls w) (completions w) (trace w).

(** Modelled from the spec: [RecurringTask.suspend_task] is not in the
    sample.  It takes the task off the schedule of the task manager.  What
    the task manager does with a recurring task after a tick is in
    [Interleaved.tick]. *)
Definition suspend_task (w : World) : World :=
  MkWorld (point_queue w) (response_values w) (registrationStatus w)
    (decay w) false (running w) (deferred_fns w) (in_flight w) (stderr w)
    (requests_sent w) (polls w) (completions w) (trace w).

(** Modelled from the spec: [Application.request_io] is not in the sample.
    It submits the request to the protocol stack asynchronously: the IOCB
    is in flight until the stack completes it. *)
Definition request_io (iocb : IOCB) (w : World) : World :=
  MkWorld (point_queue w) (response_values w) (registrationStatus w)
    (decay w) (task_installed w) (running w) (deferred_fns w)
    (in_flight w ++ [iocb]) (stderr w)
    (requests_sent w ++ [ioRequest iocb]) (polls w) (completions w) (trace w).

(** ** ReadPointListApplication *)

(** [ReadPropertyRequest(objectIdentifier=..., propertyIdentifier=...)]
    with [pduDestination] set, as [next_request] builds it. *)
Definition build_request (p : Point) : ReadPropertyRequest :=
  let '(addr, obj_id, prop_id) := p in
  MkRequest (ObjectIdentifier_value obj_id) prop_id (MkAddress addr).

(** [IOCB(request)] followed by [iocb.add_callback(self.complete_request)] *)
Definition new_iocb (request : ReadPropertyRequest) : IOCB :=
  MkIOCB request [Cb_complete_request] None None.

Definition next_request (w : World) : World :=
  match point_queue w with
  | [] => stop w
  | p :: rest =>
      let w1 := set_point_queue rest w in
      let iocb := new_iocb (build_request p) in
      request_io iocb w1
  end.

(** The value [complete_request] computes from an acknowledgement whose
    datatype resolved. *)
Definition decode_value (datatype : Datatype) (apdu : ReadPropertyACK)
  : result PyValue :=
  match datatype, propertyArrayIndex apdu with
  | ArrayOf subtype, Some idx =>
      if (idx =? 0)%Z
      then cast_out (propertyValue apdu) Unsigned
      else cast_out (propertyValue apdu) subtype
  | _, _ => cast_out (propertyValue apdu) datatype
  end.

Definition complete_request (iocb : IOCB) (w : World) : result World :=
  w1 <- match ioResponse iocb with
        | Some apdu =>
            match get_datatype (fst (objectIdentifier apdu))
                               (propertyIdentifier apdu) with
            | None => Raise (TypeError "unknown datatype")
            | Some datatype =>
                value <- decode_value datatype apdu ;;
                Return (response_values_append (DecodedValue value) w)
            end
        | None => Return w
        end ;;
  let w2 := match ioError iocb with
            | Some err => response_values_append (ProtocolError err) w1
            | None => w1
            end in
  Return (deferred Fn_next_request w2).

(** [ReadPointListApplication.__init__]: the point list becomes the queue
    and the list of response values starts empty.  The application is a
    foreign device that has not registered yet ([registrationStatus] is
    rewritten by the stack before every poll). *)
Definition ReadPointListApplication_init (point_list : list Point) : World :=
  MkWorld point_list [] (-1) PrimFloat.zero false false [] [] [] [] 0 0 [].

(** ** PrairieDog *)

Definition newline : string := String "010"%char EmptyString.

(** [PrairieDog.__init__(interval)] *)
Definition PrairieDog_init (interval : Z) (w : World) : result World :=
  d <- PyNum.truediv (5 * 1000) interval ;;
  Return (install_task (set_decay d w)).

Definition process_task (w : World) : World :=
  if (registrationStatus w =? 0)%Z then
    suspend_task (deferred Fn_next_request w)
  else
    let w1 := set_decay (PyNum.sub_int (decay w) 1) w in
    if PyNum.eq_int (decay w1) 0 then
      stop (stderr_write (String.append "registration failed" newline) w1)
    else w1.

(** ** The event loop *)

(** What the network does is an input of a run: [observe k] is the
    registration status the stack shows at poll [k], [respond k] is how
    completion [k] ends ([ioResponse], [ioError]). *)

Record Env : Type := MkEnv {
  observe : nat -> Z;
  respond : nat -> option ReadPropertyACK * option ErrorPDU
}.

Definition set_in_flight (l : list IOCB) (w : World) : World :=
  MkWorld (point_queue w) (response_values w) (registrationStatus w)
    (decay w) (task_installed w) (running w) (deferred_fns w) l (stderr w)
    (requests_sent w) (polls w) (completions w) (trace w).

Definition set_deferred_fns (l : list DeferredFn) (w : World) : World :=
  MkWorld (point_queue w) (response_values w) (registrationStatus w)
    (decay w) (task_installed w) (running w) l (in_flight w) (stderr w)
    (requests_sent w) (polls w) (completions w) (trace w).

Definition set_running (b : bool) (w : World) : World :=
  MkWorld (point_queue w) (response_values w) (registrationStatus w)
    (decay w) (task_installed w) b (deferred_fns w) (in_flight w) (stderr w)
    (requests_sent w) (polls w) (completions w) (trace w).

(** The stack shows a status and the task manager counts one more poll. *)
Definition begin_poll (status : Z) (w : World) : World :=
  MkWorld (point_queue w) (response_values w) status
    (decay w) (task_installed w) (running w) (deferred_fns w) (in_flight w)
    (stderr w) (requests_sent w) (S (polls w)) (completions w)
    (trace w ++ [LPoll status]).

Definition count_completion (w : World) : World :=
  MkWorld (point_queue w) (response_values w) (registrationStatus w)
    (decay w) (task_installed w) (running w) (deferred_fns w) (in_flight w)
    (stderr w) (requests_sent w) (polls w) (S (completions w)) (trace w).

Definition log (l : Label) (w : World) : World :=
  MkWorld (point_queue w) (response_values w) (registrationStatus w)
    (decay w) (task_installed w) (running w) (deferred_fns w) (in_flight w)
    (stderr w) (requests_sent w) (polls w) (completions w) (trace w ++ [l]).

(** The core calls a posted continuation. *)
Definition call_deferred (fn : DeferredFn) (w : World) : World :=
  match fn with
  | Fn_next_request => next_request w
  end.

(** Modelled from the spec: [IOCB.trigger] is not in the sample.  The
    completion of an IOCB calls each of its callbacks with it, once. *)
Fixpoint trigger (cbs : list Callback) (iocb : IOCB) (w : World)
  : result World :=
  match cbs with
  | [] => Return w
  | Cb_complete_request :: rest =>
      w1 <- complete_request iocb w ;;
      trigger rest iocb w1
  end.

(** The IOCB as the callbacks see it. *)
Definition completed (iocb : IOCB)
    (r : option ReadPropertyACK * option ErrorPDU) : IOCB :=
  MkIOCB (ioRequest iocb) (ioCallback iocb) (fst r) (snd r).

(** How one turn of the loop ends. *)
Inductive Turn : Type :=
| Continue (w : World)             (* the turn ran to its end *)
| Uncaught (e : PyExc) (w : World) (* a callback raised *)
| LoopExit                         (* the loop was told to stop *)
| Idle.                            (* nothing is pending *)

(** Modelled from the spec: [bacpypes.core.run] and the stack that
    completes an IOCB are not in the sample.  One single-threaded loop
    multiplexes the deferred continuations, the completion notifications
    of in-flight requests and the ticks of the installed recurring task;
    each turn runs one of them to its end.  [stop] makes the loop exit
    before its next turn, whatever is still pending.  A completion fills
    [ioResponse] or [ioError] of the oldest in-flight IOCB and calls its
    callbacks.  The three kinds of work are tried in one fixed order and
    the task is polled only while nothing else is pending: these are the
    runs in which the task is not due again between the poll that saw the
    registration succeed and the end of the reads.  The runs in which it
    is, and what the core does after an exception left a callback, are
    those of [Interleaved.step]; here the turn ends with the exception
    ([Uncaught]). *)
Definition turn (env : Env) (w : World) : Turn :=
  if negb (running w) then LoopExit
  else
    match deferred_fns w with
    | fn :: rest =>
        Continue (call_deferred fn (log (LDeferred fn) (set_deferred_fns rest w)))
    | [] =>
        match in_flight w with
        | iocb :: rest =>
            let iocb' := completed iocb (respond env (completions w)) in
            let w1 := log (LCompletion iocb')
                        (count_completion (set_in_flight rest w)) in
            match trigger (ioCallback iocb') iocb' w1 with
            | Return w2 => Continue w2
            | Raise e => Uncaught e w1
            end
        | [] =>
            if task_installed w then
              Continue (process_task (begin_poll (observe env (polls w)) w))
            else Idle
        end
    end.

(** How a run ends, or that it has not ended after the turns allowed. *)
Inductive RunResult : Type :=
| Exited (w : World)               (* run() returned *)
| Raised (e : PyExc) (w : World)   (* a callback raised: followed no further *)
| Blocked (w : World)              (* nothing is pending *)
| OutOfFuel (w : World).           (* still running after that many turns *)

(** Modelled from the spec: the loop of [bacpypes.core.run], turn after
    turn until it is stopped.  A run is followed up to the first exception
    that leaves a callback ([Raised]): the state is the one the raise
    left. *)
Fixpoint loop (fuel : nat) (env : Env) (w : World) : RunResult :=
  match fuel with
  | O => OutOfFuel w
  | S fuel' =>
      match turn env w with
      | Continue w' => loop fuel' env w'
      | Uncaught e w' => Raised e w'
      | LoopExit => Exited w
      | Idle => Blocked w
      end
  end.

(** Modelled from the spec: [bacpypes.core.run] is not in the sample.  It
    starts the event loop. *)
Definition run (fuel : nat) (env : Env) (w : World) : RunResult :=
  loop fuel env (set_running true w).

Definition last_world (r : RunResult) : World :=
  match r with
  | Exited w | Raised _ w | Blocked w | OutOfFuel w => w
  end.

(** ** main *)

(** The lines [print(request, response)] writes in the final loop. *)
Definition dump (point_list : list Point) (response_values : list Outcome)
  : list (Point * Outcome) :=
  combine point_list response_values.

Inductive MainResult : Type :=
| Finished (w : World) (stdout : list (Point * Outcome))
| NotFinished (r : RunResult)
| InitRaised (e : PyExc).

Definition main (point_list : list Point) (env : Env) (fuel : nat)
  : MainResult :=
  let this_application := ReadPointListApplication_init point_list in
  match PrairieDog_init 500 this_application with
  | Raise e => InitRaised e
  | Return w0 =>
      match run fuel env w0 with
      | Exited w => Finished w (dump point_list (response_values w))
      | r => NotFinished r
      end
  end.

(** ** Vocabulary of the statements *)

(** What a completion leaves in [response_values] when it carries either a
    protocol error or a response whose datatype resolves and whose value
    casts out; [None] for every other completion. *)
Definition outcome_of (r : option ReadPropertyACK * option ErrorPDU)
  : option Outcome :=
  match r with
  | (None, Some err) => Some (ProtocolError err)
  | (Some apdu, None) =>
      match get_datatype (fst (objectIdentifier apdu))
                         (propertyIdentifier apdu) with
      | Some datatype =>
          match decode_value datatype apdu with
          | Return value => Some (DecodedValue value)
          | Raise _ => None
          end
      | None => None
      end
  | _ => None
  end.

Definition clean (r : option ReadPropertyACK * option ErrorPDU) : Prop :=
  outcome_of r <> None.

(** The outcomes of completions [from], ..., [from + n - 1], in order. *)
Definition outcomes (env : Env) (from n : nat) : list Outcome :=
  flat_map (fun k => match outcome_of (respond env k) with
                     | Some o => [o]
                     | None => []
                     end) (seq from n).

(** The statuses seen by polls [from], ..., [from + n - 1]. *)
Definition statuses (env : Env) (from n : nat) : list Z :=
  map (observe env) (seq from n).

(** The turns of the loop that read the points [pts] one after the other,
    the first completion being number [k]: each point is an advance
    followed by the completion of its request. *)
Fixpoint read_turns (env : Env) (k : nat) (pts : list Point) : list Label :=
  match pts with
  | [] => []
  | p :: rest =>
      LDeferred Fn_next_request
      :: LCompletion (completed (new_iocb (build_request p)) (respond env k))
      :: read_turns env (S k) rest
  end.

Definition is_poll (l : Label) : bool :=
  match l with
  | LPoll _ => true
  | _ => false
  end.

(** Before the registration was seen to succeed: only unsuccessful polls
    have run, the driver was not triggered and nothing was submitted.  The
    loop is running, or it was stopped with the diagnostic written. *)
Definition Waiting (pts : list Point) (w : World) : Prop :=
  task_installed w = true
  /\ deferred_fns w = [] /\ in_flight w = [] /\ requests_sent w = []
  /\ response_values w = [] /\ point_queue w = pts /\ completions w = 0
  /\ (if running w then stderr w = [] else stderr w <> [])
  /\ exists fails,
       trace w = map LPoll fails /\ Forall (fun s => s <> 0%Z) fails.

(** The states of [loop] after the successful poll, [turn] serving no
    further poll: the requests sent so far are those of the points taken
    from the queue, in order, and the driver is idle with its advance
    posted, or awaits the completion of its one request, or has nothing
    pending (it stopped the loop on an empty queue, or a callback
    raised). *)
Definition Started (pts : list Point) (w : World) : Prop :=
  task_installed w = false
  /\ stderr w = []
  /\ (exists fails after,
        trace w = map LPoll fails ++ LPoll 0 :: after
        /\ Forall (fun s => s <> 0%Z) fails
        /\ Forall (fun l => is_poll l = false) after)
  /\ (exists done,
        pts = done ++ point_queue w
        /\ requests_sent w = map build_request done
        /\ length done = completions w + length (in_flight w))
  /\ ((deferred_fns w = [Fn_next_request] /\ in_flight w = []
       /\ running w = true)
      \/ (deferred_fns w = []
          /\ (exists p, in_flight w = [new_iocb (build_request p)])
          /\ running w = true)
      \/ (deferred_fns w = [] /\ in_flight w = []
          /\ (running w = false -> point_queue w = []))).

Definition Inv (pts : list Point) (w : World) : Prop :=
  Waiting pts w \/ Started pts w.

(** The state after [n] more polls that saw no success and did not exhaust
    the decay counter. *)
Fixpoint after_polls (env : Env) (n : nat) (w : World) : World :=
  match n with
  | O => w
  | S n' =>
      after_polls env n'
        (set_decay (PyNum.sub_int (decay w) 1)
           (begin_poll (observe env (polls w)) w))
  end.

(** The decay counter after [n] unsuccessful polls. *)
Fixpoint decays (n : nat) (d : float) : float :=
  match n with
  | O => d
  | S n' => decays n' (PyNum.sub_int d 1)
  end.

(** ** Vocabulary of the further statements *)

(** The number of unsuccessful polls at which a decay counter that starts
    at [d] first equals zero, looking at most [fuel] polls ahead. *)
Fixpoint first_zero (fuel : nat) (d : float) : option nat :=
  match fuel with
  | O => None
  | S fuel' =>
      let d' := PyNum.sub_int d 1 in
      if PyNum.eq_int d' 0 then Some 1
      else option_map S (first_zero fuel' d')
  end.

(** A completion that does not carry both a response and an error. *)
Definition one_sided (r : option ReadPropertyACK * option ErrorPDU) : Prop :=
  fst r = None \/ snd r = None.

(** The positive divisors of 5000. *)
Definition divisors_5000 : list Z :=
  [1; 2; 4; 5; 8; 10; 20; 25; 40; 50; 100; 125; 200; 250; 500; 625; 1000;
   1250; 2500; 5000]%Z.

(** At a poll every [interval] ms the counter first equals zero at poll
    [5000 / interval]. *)
Definition zero_on_time (interval : Z) : bool :=
  match PyNum.truediv (5 * 1000) interval with
  | Return d =>
      match first_zero 5000 d with
      | Some n => Nat.eqb n (Z.to_nat (5000 / interval))
      | None => false
      end
  | Raise _ => false
  end.

End Sample.

(** ** A concrete stack, for running the model

    Payloads are integers, a decoded value remembers the class it was
    decoded as, and errors are texts.  The registry knows two properties of
    the analog value object. *)

Module Demo.

Definition Any : Type := Z.
Definition PyValue : Type := (Datatype * Z)%type.
Definition ErrorPDU : Type := string.

Definition ObjectIdentifier_value (obj_id : string) : ObjectId :=
  if String.eqb obj_id "analogValue:1" then ("analogValue"%string, 1%Z)
  else if String.eqb obj_id "analogValue:2" then ("analogValue"%string, 2%Z)
  else (obj_id, 0%Z).

Definition get_datatype (obj_type prop_id : string) : option Datatype :=
  if String.eqb obj_type "analogValue" then
    if String.eqb prop_id "presentValue" then Some (OtherClass "Real")
    else if String.eqb prop_id "priorityArray"
    then Some (ArrayOf (OtherClass "PriorityValue"))
    else None
  else None.

Definition cast_out (payload : Any) (datatype : Datatype) : result PyValue :=
  Return (datatype, payload).

(** The point list of the sample. *)
Definition point_list : list Point :=
  [ ("10.0.1.14", "analogValue:1", "presentValue");
    ("10.0.1.14", "analogValue:2", "presentValue") ]%string.

Definition ack (obj_id : ObjectId) (prop_id : string) (idx : option Z)
    (payload : Z) : ReadPropertyACK Any :=
  MkACK obj_id prop_id idx payload.

(** An acknowledgement of a property the registry does not know. *)
Definition ack_unknown : ReadPropertyACK Any :=
  ack ("analogValue"%string, 1%Z) "513" None 7%Z.

Definition ack_present (instance payload : Z) : ReadPropertyACK Any :=
  ack ("analogValue"%string, instance) "presentValue" None payload.

Definition request1 : ReadPropertyRequest :=
  build_request ObjectIdentifier_value
    ("10.0.1.14", "analogValue:1", "presentValue")%string.

(** The application right after [main] created it and the task. *)
Definition world0 (pts : list Point) : World Any PyValue ErrorPDU :=
  match PrairieDog_init 500 (ReadPointListApplication_init Any PyValue ErrorPDU pts) with
  | Return w => w
  | Raise _ => ReadPointListApplication_init Any PyValue ErrorPDU pts
  end.

(** A state in which the first request is in flight and the second point is
    still queued. *)
Definition world_busy : World Any PyValue ErrorPDU :=
  next_request ObjectIdentifier_value (set_running true (suspend_task (world0 point_list))).

(** Registration succeeds at the first poll; every read is answered with
    its index as the value. *)
Definition env_ok : Env Any ErrorPDU :=
  MkEnv (fun _ => 0%Z)
        (fun k => (Some (ack_present (Z.of_nat k + 1) (Z.of_nat k)), None)).

(** Registration succeeds at once; the first read is answered for a
    property the registry does not know. *)
Definition env_unknown : Env Any ErrorPDU :=
  MkEnv (fun _ => 0%Z)
        (fun k => match k with
                  | O => (Some ack_unknown, None)
                  | S _ => (Some (ack_present 2 5), None)
                  end).

(** Registration succeeds at once; the first read is rejected, the second
    answered. *)
Definition env_error_first : Env Any ErrorPDU :=
  MkEnv (fun _ => 0%Z)
        (fun k => match k with
                  | O => (None, Some "unknown-object"%string)
                  | S _ => (Some (ack_present 2 5), None)
                  end).

(** The registration never completes. *)
Definition env_never : Env Any ErrorPDU :=
  MkEnv (fun _ => (-1)%Z) (fun _ => (None, Some "timeout"%string)).

(** The IOCB of the first request, completed in different ways: with the
    element count of the priority array, with its third element, with a
    property the registry does not know, and with an error. *)
Definition iocb_count : IOCB Any ErrorPDU :=
  completed (new_iocb Any ErrorPDU request1)
    (Some (ack ("analogValue"%string, 1%Z) "priorityArray" (Some 0%Z) 16%Z), None).

Definition iocb_element : IOCB Any ErrorPDU :=
  completed (new_iocb Any ErrorPDU request1)
    (Some (ack ("analogValue"%string, 1%Z) "priorityArray" (Some 3%Z) 42%Z), None).

Definition iocb_unknown : IOCB Any ErrorPDU :=
  completed (new_iocb Any ErrorPDU request1) (Some ack_unknown, None).

Definition iocb_error : IOCB Any ErrorPDU :=
  completed (new_iocb Any ErrorPDU request1) (None, Some "unknown-object"%string).

(** The application and a task that polls every 300 ms. *)
Definition world300 : World Any PyValue ErrorPDU :=
  match PrairieDog_init 300 (ReadPointListApplication_init Any PyValue ErrorPDU point_list) with
  | Return w => w
  | Raise _ => ReadPointListApplication_init Any PyValue ErrorPDU point_list
  end.

(** The state in which the run of the sample ends when every read is
    answered. *)
Definition final_ok : World Any PyValue ErrorPDU :=
  last_world (run ObjectIdentifier_value get_datatype cast_out 8 env_ok
                (world0 point_list)).

End Demo.

(** * Properties *)

Section Properties.

Variables (Any PyValue ErrorPDU : Type).
Variable ObjectIdentifier_value : string -> ObjectId.
Variable get_datatype : string -> string -> option Datatype.
Variable cast_out : Any -> Datatype -> result PyValue.

Local Abbreviation W := (World Any PyValue ErrorPDU).
Local Abbreviation complete := (complete_request get_datatype cast_out).
Local Abbreviation advance := (next_request (Any:=Any) (PyValue:=PyValue)
                             (ErrorPDU:=ErrorPDU) ObjectIdentifier_value).

(** ** The completion handler *)

Lemma complete_request_response (iocb : IOCB Any ErrorPDU) (w : W) apdu datatype :
  ioResponse iocb = Some apdu ->
  ioError iocb = None ->
  get_datatype (fst (objectIdentifier apdu)) (propertyIdentifier apdu)
    = Some datatype ->
  complete iocb w =
    (value <- decode_value cast_out datatype apdu ;;
     Return (deferred Fn_next_request
               (response_values_append (DecodedValue ErrorPDU value) w))).
Proof.
  intros Hresp Herr Hdt. unfold complete_request.
  rewrite Hresp, Hdt, Herr. cbn [bind].
  destruct (decode_value cast_out datatype apdu); reflexivity.
Qed.

(** C3. A successful response whose datatype resolves is decoded by
    [cast_out] as follows: an array class with an explicit index 0 as
    [Unsigned], whatever the element class; an array class with an explicit
    non-zero index as the element class [subtype]; a class that is not an
    array, or a response without an index, as the resolved class itself.
    The decoded value is what the handler appends. *)
Theorem array_index_decoding (iocb : IOCB Any ErrorPDU) (w : W) apdu datatype :
  ioResponse iocb = Some apdu ->
  ioError iocb = None ->
  get_datatype (fst (objectIdentifier apdu)) (propertyIdentifier apdu)
    = Some datatype ->
  let record class :=
    value <- cast_out (propertyValue apdu) class ;;
    Return (deferred Fn_next_request
              (response_values_append (DecodedValue ErrorPDU value) w)) in
  (issubclass_Array datatype = true -> propertyArrayIndex apdu = Some 0%Z ->
     complete iocb w = record Unsigned)
  /\ (forall subtype idx,
        datatype = ArrayOf subtype -> propertyArrayIndex apdu = Some idx ->
        idx <> 0%Z ->
        complete iocb w = record subtype)
  /\ (issubclass_Array datatype = false \/ propertyArrayIndex apdu = None ->
        complete iocb w = record datatype).
Proof.
  intros Hresp Herr Hdt record.
  rewrite (complete_request_response iocb w Hresp Herr Hdt).
  unfold decode_value, record. repeat split.
  - intros Harr Hidx. rewrite Hidx.
    destruct datatype; try discriminate Harr. reflexivity.
  - intros subtype idx -> Hidx Hnz. rewrite Hidx.
    apply Z.eqb_neq in Hnz. rewrite Hnz. reflexivity.
  - intros [Hna | Hnone].
    + destruct datatype; try discriminate Hna; reflexivity.
    + rewrite Hnone. destruct datatype; reflexivity.
Qed.

Lemma complete_request_clean (iocb : IOCB Any ErrorPDU) (w : W) o :
  outcome_of get_datatype cast_out (ioResponse iocb, ioError iocb) = Some o ->
  complete iocb w
  = Return (deferred Fn_next_request (response_values_append o w)).
Proof.
  unfold outcome_of, complete_request.
  destruct (ioResponse iocb) as [apdu|], (ioError iocb) as [err|];
    try discriminate.
  - destruct (get_datatype _ _) as [datatype|]; try discriminate.
    destruct (decode_value cast_out datatype apdu); try discriminate.
    intros [= <-]. reflexivity.
  - intros [= <-]. reflexivity.
Qed.

(** C2 (as the code has it). A completion that carries a response whose
    (object type, property) pair the registry does not resolve makes the
    handler raise [TypeError("unknown datatype")]: the turn of the loop
    that delivers it ends with that exception, no outcome is recorded for
    the point and no advance is scheduled. *)
Theorem unknown_datatype_raises (env : Env Any ErrorPDU) (w : W) iocb rest apdu :
  running w = true ->
  deferred_fns w = [] ->
  in_flight w = iocb :: rest ->
  ioCallback iocb = [Cb_complete_request] ->
  fst (respond env (completions w)) = Some apdu ->
  get_datatype (fst (objectIdentifier apdu)) (propertyIdentifier apdu) = None ->
  complete (completed iocb (respond env (completions w))) w
    = Raise (TypeError "unknown datatype")
  /\ exists w1,
       turn ObjectIdentifier_value get_datatype cast_out env w
         = Uncaught (TypeError "unknown datatype") w1
       /\ response_values w1 = response_values w
       /\ deferred_fns w1 = []
       /\ requests_sent w1 = requests_sent w.
Proof.
  intros Hrun Hdef Hfl Hcb Hresp Hdt.
  assert (Hraise : forall w', complete (completed iocb (respond env (completions w))) w'
                   = Raise (TypeError "unknown datatype")).
  { intros w'. unfold complete_request, completed. cbn [ioResponse].
    rewrite Hresp, Hdt. reflexivity. }
  split; [apply Hraise|].
  unfold turn. rewrite Hrun, Hdef, Hfl. cbn [negb].
  replace (ioCallback (completed iocb (respond env (completions w))))
    with [Cb_complete_request] by (symmetry; exact Hcb).
  cbn [trigger]. rewrite Hraise. cbn [bind].
  eexists. split; [reflexivity|]. cbn. rewrite Hdef. auto.
Qed.

(** C8. A completion that carries a protocol error (and no response) makes
    the handler return normally: exactly the error is appended to the
    response values, as a [ProtocolError] and nothing else; the point queue
    and the requests handed to the stack are unchanged (no retry); the loop
    keeps running and the next advance is posted to it. *)
Theorem protocol_error_recorded_and_continues (iocb : IOCB Any ErrorPDU) (w : W) err :
  ioError iocb = Some err ->
  ioResponse iocb = None ->
  exists w',
    complete iocb w = Return w'
    /\ response_values w' = response_values w ++ [ProtocolError PyValue err]
    /\ (forall value, ~ In (DecodedValue ErrorPDU value)
                           (skipn (length (response_values w)) (response_values w')))
    /\ point_queue w' = point_queue w
    /\ requests_sent w' = requests_sent w
    /\ in_flight w' = in_flight w
    /\ running w' = running w
    /\ deferred_fns w' = deferred_fns w ++ [Fn_next_request].
Proof.
  intros Herr Hresp.
  eexists. split.
  - apply complete_request_clean. rewrite Hresp, Herr. reflexivity.
  - cbn. repeat split; try reflexivity.
    intros value. rewrite skipn_app, Nat.sub_diag, skipn_all. cbn.
    intros [H | []]. discriminate H.
Qed.

(** ** One turn of the loop *)

Local Abbreviation turn' := (turn ObjectIdentifier_value get_datatype cast_out).
Local Abbreviation loop' := (loop ObjectIdentifier_value get_datatype cast_out).
Local Abbreviation run' := (run ObjectIdentifier_value get_datatype cast_out).
Local Abbreviation main' := (main ObjectIdentifier_value get_datatype cast_out).

Lemma turn_exit (env : Env Any ErrorPDU) (w : W) :
  running w = false -> turn' env w = LoopExit _ _ _.
Proof. intros H. unfold turn. rewrite H. reflexivity. Qed.

Lemma turn_advance (env : Env Any ErrorPDU) (w : W) fn rest :
  running w = true ->
  deferred_fns w = fn :: rest ->
  turn' env w
  = Continue (call_deferred ObjectIdentifier_value fn
                (log (LDeferred _ _ fn) (set_deferred_fns rest w))).
Proof. intros Hr Hd. unfold turn. rewrite Hr, Hd. reflexivity. Qed.

Lemma turn_poll (env : Env Any ErrorPDU) (w : W) :
  running w = true ->
  deferred_fns w = [] ->
  in_flight w = [] ->
  task_installed w = true ->
  turn' env w = Continue (process_task (begin_poll (observe env (polls w)) w)).
Proof. intros Hr Hd Hf Ht. unfold turn. rewrite Hr, Hd, Hf, Ht. reflexivity. Qed.

Lemma turn_completion (env : Env Any ErrorPDU) (w : W) iocb rest :
  running w = true ->
  deferred_fns w = [] ->
  in_flight w = iocb :: rest ->
  ioCallback iocb = [Cb_complete_request] ->
  let iocb' := completed iocb (respond env (completions w)) in
  let w1 := log (LCompletion iocb') (count_completion (set_in_flight rest w)) in
  turn' env w = match complete iocb' w1 with
                | Return w2 => Continue w2
                | Raise e => Uncaught e w1
                end.
Proof.
  intros Hr Hd Hf Hcb iocb' w1. unfold turn. rewrite Hr, Hd, Hf. cbn [negb].
  replace (ioCallback (completed iocb (respond env (completions w))))
    with [Cb_complete_request] by (symmetry; exact Hcb).
  cbn [trigger]. fold iocb'. fold w1.
  destruct (complete iocb' w1); reflexivity.
Qed.

Lemma turn_completion_clean (env : Env Any ErrorPDU) (w : W) iocb rest o :
  running w = true ->
  deferred_fns w = [] ->
  in_flight w = iocb :: rest ->
  ioCallback iocb = [Cb_complete_request] ->
  outcome_of get_datatype cast_out (respond env (completions w)) = Some o ->
  turn' env w
  = Continue (deferred Fn_next_request
                (response_values_append o
                   (log (LCompletion (completed iocb (respond env (completions w))))
                      (count_completion (set_in_flight rest w))))).
Proof.
  intros Hr Hd Hf Hcb Ho.
  rewrite (turn_completion env w Hr Hd Hf Hcb). cbv zeta.
  rewrite complete_request_clean with (o := o); [reflexivity|].
  unfold completed. cbn [ioResponse ioError].
  destruct (respond env (completions w)); exact Ho.
Qed.

(** ** What every run keeps *)

Local Abbreviation Inv' := (Inv ObjectIdentifier_value).

(** What the handler leaves untouched when it returns. *)
Lemma complete_request_frame (iocb : IOCB Any ErrorPDU) (w w' : W) :
  complete iocb w = Return w' ->
  point_queue w' = point_queue w
  /\ task_installed w' = task_installed w
  /\ running w' = running w
  /\ deferred_fns w' = deferred_fns w ++ [Fn_next_request]
  /\ in_flight w' = in_flight w
  /\ stderr w' = stderr w
  /\ requests_sent w' = requests_sent w
  /\ completions w' = completions w
  /\ trace w' = trace w.
Proof.
  unfold complete_request.
  destruct (ioResponse iocb) as [apdu|].
  - destruct (get_datatype _ _) as [datatype|]; [|discriminate].
    destruct (decode_value cast_out datatype apdu); [|discriminate].
    cbn [bind]. destruct (ioError iocb); intros [= <-]; cbn; auto 10.
  - cbn [bind]. destruct (ioError iocb); intros [= <-]; cbn; auto 10.
Qed.

Lemma Inv_poll (pts : list Point) (w : W) status :
  running w = true ->
  Waiting pts w ->
  Inv' pts (process_task (begin_poll status w)).
Proof.
  intros Hrun (Hti & Hd & Hf & Hrs & Hrv & Hq & Hc & Hst & fails & Htr & Hfails).
  rewrite Hrun in Hst.
  unfold process_task. cbn [begin_poll registrationStatus].
  destruct (Z.eqb_spec status 0) as [-> | Hnz].
  - right. unfold Started. cbn. rewrite Hd, Hf, Hrs, Htr, Hc, Hq, Hst, Hrun.
    split; [reflexivity|]. split; [reflexivity|]. split.
    + exists fails, []. auto.
    + split; [exists []; auto|]. left. auto.
  - left.
    assert (Htrace : exists fails',
               trace w ++ [LPoll Any ErrorPDU status] = map (LPoll Any ErrorPDU) fails'
               /\ Forall (fun s => s <> 0%Z) fails').
    { exists (fails ++ [status]). rewrite map_app, Htr. split; [reflexivity|].
      apply Forall_app. auto. }
    destruct (PyNum.eq_int _ 0); unfold Waiting; cbn -[String.append];
      rewrite ?Hrun; repeat (split; [assumption || reflexivity|]);
      try exact Htrace.
    split; [|exact Htrace].
    intros H. apply app_eq_nil in H. destruct H as [_ H]. discriminate H.
Qed.

Lemma Inv_advance (pts : list Point) (w : W) :
  Started ObjectIdentifier_value pts w ->
  deferred_fns w = [Fn_next_request] ->
  in_flight w = [] ->
  running w = true ->
  Inv' pts (advance (log (LDeferred Any ErrorPDU Fn_next_request)
                       (set_deferred_fns [] w))).
Proof.
  intros (Hti & Hst & (fails & after & Htr & Hfails & Hafter)
          & (done & Hpts & Hrs & Hlen) & _) Hd Hf Hrun.
  right. unfold next_request. cbn [log set_deferred_fns point_queue].
  assert (Htrace : exists fails' after',
             trace w ++ [LDeferred Any ErrorPDU Fn_next_request]
             = map (LPoll Any ErrorPDU) fails' ++ LPoll Any ErrorPDU 0 :: after'
             /\ Forall (fun s => s <> 0%Z) fails'
             /\ Forall (fun l => is_poll l = false) after').
  { exists fails, (after ++ [LDeferred Any ErrorPDU Fn_next_request]).
    rewrite Htr, <- app_assoc. split; [reflexivity|]. split; [assumption|].
    apply Forall_app. auto. }
  destruct (point_queue w) as [|p rest] eqn:Hq.
  - unfold Started. cbn. rewrite Hq, Hf.
    refine (conj Hti (conj Hst (conj Htrace (conj _ _)))).
    + exists done. rewrite Hf in Hlen. auto.
    + right. right. auto.
  - unfold Started. cbn. rewrite Hf, Hrun. cbn.
    refine (conj Hti (conj Hst (conj Htrace (conj _ _)))).
    + exists (done ++ [p]). rewrite <- app_assoc, map_app, Hrs, length_app.
      rewrite Hf in Hlen. cbn in *. repeat split; auto. lia.
    + right. left. repeat split; auto. exists p. reflexivity.
Qed.

Lemma Inv_completion (pts : list Point) (env : Env Any ErrorPDU) (w : W) p :
  Started ObjectIdentifier_value pts w ->
  deferred_fns w = [] ->
  in_flight w = [new_iocb Any ErrorPDU (build_request ObjectIdentifier_value p)] ->
  running w = true ->
  let iocb' := completed (new_iocb Any ErrorPDU (build_request ObjectIdentifier_value p))
                 (respond env (completions w)) in
  let w1 := log (LCompletion iocb') (count_completion (set_in_flight [] w)) in
  Inv' pts w1 /\ forall w2, complete iocb' w1 = Return w2 -> Inv' pts w2.
Proof.
  intros (Hti & Hst & (fails & after & Htr & Hfails & Hafter)
          & (done & Hpts & Hrs & Hlen) & _) Hd Hf Hrun iocb' w1.
  assert (Htrace : exists fails' after',
             trace w1
             = map (LPoll Any ErrorPDU) fails' ++ LPoll Any ErrorPDU 0 :: after'
             /\ Forall (fun s => s <> 0%Z) fails'
             /\ Forall (fun l => is_poll l = false) after').
  { exists fails, (after ++ [LCompletion iocb']). cbn.
    rewrite Htr, <- app_assoc. split; [reflexivity|]. split; [assumption|].
    apply Forall_app. auto. }
  assert (Hdone : exists done',
             pts = done' ++ point_queue w1
             /\ requests_sent w1 = map (build_request ObjectIdentifier_value) done'
             /\ length done' = completions w1 + 0).
  { exists done. cbn. rewrite Hf in Hlen. cbn in Hlen. repeat split; auto. lia. }
  split.
  - right. unfold Started.
    refine (conj Hti (conj Hst (conj Htrace (conj _ _)))).
    + destruct Hdone as (done' & H1 & H2 & H3). exists done'. auto.
    + right. right. cbn. rewrite Hrun. repeat split; auto. discriminate.
  - intros w2 Hw2. apply complete_request_frame in Hw2.
    destruct Hw2 as (Eq & Eti & Erun & Ed & Ef & Est & Ers & Ec & Etr).
    right. unfold Started. rewrite Eti, Est, Etr, Eq, Ers, Ec, Ef, Ed, Erun.
    refine (conj Hti (conj Hst (conj Htrace (conj _ _)))).
    + destruct Hdone as (done' & H1 & H2 & H3). exists done'. auto.
    + left. cbn. rewrite Hd. auto.
Qed.

Lemma turn_Inv (pts : list Point) (env : Env Any ErrorPDU) (w : W) :
  Inv' pts w ->
  match turn' env w with
  | Continue w' | Uncaught _ w' => Inv' pts w'
  | _ => True
  end.
Proof.
  intros HI. destruct (running w) eqn:Hrun;
    [|rewrite turn_exit by assumption; exact I].
  destruct HI as [HW | HS].
  - destruct HW as (Hti & Hd & Hf & HW').
    rewrite turn_poll by assumption. apply Inv_poll; [assumption|].
    unfold Waiting. auto.
  - pose proof HS as (Hti & Hst & _ & _ & [(Hd & Hf & _) | [(Hd & (p & Hf) & _) | (Hd & Hf & _)]]).
    + rewrite (turn_advance env w Hrun Hd). cbn [call_deferred].
      apply Inv_advance; assumption.
    + rewrite (turn_completion env w Hrun Hd Hf eq_refl). cbv zeta.
      destruct (@Inv_completion pts env w p HS Hd Hf Hrun) as [H1 H2].
      destruct (complete_request _ _ _ _) eqn:E; [apply H2; reflexivity | exact H1].
    + unfold turn. rewrite Hrun, Hd, Hf, Hti. exact I.
Qed.

(** Every state a run passes through, and the state it ends in, satisfies
    the invariant. *)
Lemma loop_Inv (pts : list Point) (env : Env Any ErrorPDU) (fuel : nat) :
  forall w : W, Inv' pts w -> Inv' pts (last_world (loop' fuel env w)).
Proof.
  induction fuel as [|fuel IH]; intros w HI; [exact HI|].
  cbn [loop]. pose proof (turn_Inv env HI) as HT.
  destruct (turn' env w); cbn [last_world]; auto.
Qed.

Lemma PrairieDog_init_Return (interval : Z) (w w0 : W) :
  PrairieDog_init interval w = Return w0 ->
  exists d, w0 = install_task (set_decay d w).
Proof.
  unfold PrairieDog_init. destruct (PyNum.truediv _ _); [|discriminate].
  cbn [bind]. intros [= <-]. eauto.
Qed.

Lemma Inv_start (pts : list Point) (interval : Z) (w0 : W) :
  PrairieDog_init interval (ReadPointListApplication_init Any PyValue ErrorPDU pts)
    = Return w0 ->
  Inv' pts (set_running true w0).
Proof.
  intros H. apply PrairieDog_init_Return in H. destruct H as [d ->].
  left. unfold Waiting. cbn. repeat (split; [reflexivity|]).
  exists []. auto.
Qed.

Lemma run_Inv (pts : list Point) (interval : Z) (env : Env Any ErrorPDU)
    (fuel : nat) (w0 : W) :
  PrairieDog_init interval (ReadPointListApplication_init Any PyValue ErrorPDU pts)
    = Return w0 ->
  Inv' pts (last_world (run' fuel env w0)).
Proof. intros H. apply loop_Inv, (Inv_start _ _ H). Qed.

(** ** The registration monitor *)

Lemma process_task_success (v : W) :
  registrationStatus v = 0%Z ->
  process_task v = suspend_task (deferred Fn_next_request v).
Proof. intros H. unfold process_task. rewrite H. reflexivity. Qed.

Lemma process_task_no_success (v : W) :
  registrationStatus v <> 0%Z ->
  deferred_fns (process_task v) = deferred_fns v
  /\ requests_sent (process_task v) = requests_sent v
  /\ in_flight (process_task v) = in_flight v
  /\ task_installed (process_task v) = task_installed v.
Proof.
  intros H. unfold process_task. apply Z.eqb_neq in H. rewrite H.
  destruct (PyNum.eq_int _ 0); cbn; auto.
Qed.

(** ** Runs, turn by turn *)

Lemma decays_S (n : nat) (d : float) :
  decays (S n) d = PyNum.sub_int (decays n d) 1.
Proof.
  revert d. induction n as [|n IH]; intros d; [reflexivity|].
  change (decays (S (S n)) d) with (decays (S n) (PyNum.sub_int d 1)).
  rewrite IH. reflexivity.
Qed.

Lemma after_polls_fields (env : Env Any ErrorPDU) (n : nat) :
  forall w : W,
    let w' := after_polls env n w in
    point_queue w' = point_queue w
    /\ response_values w' = response_values w
    /\ decay w' = decays n (decay w)
    /\ task_installed w' = task_installed w
    /\ running w' = running w
    /\ deferred_fns w' = deferred_fns w
    /\ in_flight w' = in_flight w
    /\ stderr w' = stderr w
    /\ requests_sent w' = requests_sent w
    /\ polls w' = polls w + n
    /\ completions w' = completions w
    /\ trace w' = trace w ++ map (LPoll Any ErrorPDU) (statuses env (polls w) n).
Proof.
  induction n as [|n IH]; intros w.
  - cbn. rewrite Nat.add_0_r, app_nil_r. auto 12.
  - cbn [after_polls]. cbv zeta.
    specialize (IH (set_decay (PyNum.sub_int (decay w) 1)
                      (begin_poll (observe env (polls w)) w))).
    cbv zeta in IH. cbn [set_decay begin_poll point_queue response_values decay
      task_installed running deferred_fns in_flight stderr requests_sent polls
      completions trace] in IH.
    destruct IH as (H1 & H2 & H3 & H4 & H5 & H6 & H7 & H8 & H9 & H10 & H11 & H12).
    rewrite H1, H2, H3, H4, H5, H6, H7, H8, H9, H10, H11, H12.
    repeat split; try reflexivity.
    + lia.
    + unfold statuses. cbn [seq map]. rewrite <- app_assoc. reflexivity.
Qed.

Lemma turn_poll_fail (env : Env Any ErrorPDU) (w : W) :
  running w = true -> deferred_fns w = [] -> in_flight w = [] ->
  task_installed w = true ->
  observe env (polls w) <> 0%Z ->
  PyNum.eq_int (PyNum.sub_int (decay w) 1) 0 = false ->
  turn' env w
  = Continue (set_decay (PyNum.sub_int (decay w) 1)
                (begin_poll (observe env (polls w)) w)).
Proof.
  intros Hr Hd Hf Ht Hobs Hdec. rewrite turn_poll by assumption.
  unfold process_task. cbn [begin_poll registrationStatus decay set_decay].
  apply Z.eqb_neq in Hobs. rewrite Hobs, Hdec. reflexivity.
Qed.

Lemma turn_poll_abort (env : Env Any ErrorPDU) (w : W) :
  running w = true -> deferred_fns w = [] -> in_flight w = [] ->
  task_installed w = true ->
  observe env (polls w) <> 0%Z ->
  PyNum.eq_int (PyNum.sub_int (decay w) 1) 0 = true ->
  turn' env w
  = Continue (stop (stderr_write (String.append "registration failed" newline)
                      (set_decay (PyNum.sub_int (decay w) 1)
                         (begin_poll (observe env (polls w)) w)))).
Proof.
  intros Hr Hd Hf Ht Hobs Hdec. rewrite turn_poll by assumption.
  unfold process_task. cbn [begin_poll registrationStatus decay set_decay].
  apply Z.eqb_neq in Hobs. rewrite Hobs, Hdec. reflexivity.
Qed.

Lemma turn_poll_success (env : Env Any ErrorPDU) (w : W) :
  running w = true -> deferred_fns w = [] -> in_flight w = [] ->
  task_installed w = true ->
  observe env (polls w) = 0%Z ->
  turn' env w
  = Continue (suspend_task (deferred Fn_next_request (begin_poll 0 w))).
Proof.
  intros Hr Hd Hf Ht Hobs. rewrite turn_poll by assumption.
  rewrite Hobs. reflexivity.
Qed.

(** [n] polls that see no success and do not exhaust the counter take [n]
    turns. *)
Lemma loop_polls (env : Env Any ErrorPDU) (n : nat) :
  forall (w : W) (fuel : nat),
    running w = true -> deferred_fns w = [] -> in_flight w = [] ->
    task_installed w = true ->
    (forall j, j < n -> observe env (polls w + j) <> 0%Z) ->
    (forall j, 1 <= j <= n -> PyNum.eq_int (decays j (decay w)) 0 = false) ->
    loop' (n + fuel) env w = loop' fuel env (after_polls env n w).
Proof.
  induction n as [|n IH]; intros w fuel Hr Hd Hf Ht Hobs Hdec; [reflexivity|].
  cbn [Nat.add loop].
  rewrite turn_poll_fail; try assumption.
  - cbn [after_polls]. apply IH; try assumption.
    + intros j Hj. cbn. rewrite <- Nat.add_succ_r. apply Hobs. lia.
    + intros j Hj. cbn. apply (Hdec (S j)). lia.
  - specialize (Hobs 0). rewrite Nat.add_0_r in Hobs. apply Hobs. lia.
  - apply (Hdec 1). lia.
Qed.

Lemma outcomes_cons (env : Env Any ErrorPDU) (k n : nat) o :
  outcome_of get_datatype cast_out (respond env k) = Some o ->
  outcomes get_datatype cast_out env k (S n)
  = o :: outcomes get_datatype cast_out env (S k) n.
Proof. intros H. unfold outcomes. cbn [seq flat_map]. rewrite H. reflexivity. Qed.

(** From an idle driver with its advance posted, reading the queue takes
    two turns a point, one more for the advance that finds the queue empty
    and stops the loop, and one for the loop to exit. *)
Lemma loop_reads (env : Env Any ErrorPDU) (q : list Point) :
  forall (w : W) (fuel : nat),
    running w = true -> deferred_fns w = [Fn_next_request] ->
    in_flight w = [] -> point_queue w = q ->
    (forall i, i < length q ->
               clean get_datatype cast_out (respond env (completions w + i))) ->
    loop' (2 * length q + 2 + fuel) env w
    = Exited
        (MkWorld [] (response_values w
                       ++ outcomes get_datatype cast_out env (completions w) (length q))
           (registrationStatus w) (decay w) (task_installed w) false [] []
           (stderr w)
           (requests_sent w ++ map (build_request ObjectIdentifier_value) q)
           (polls w) (completions w + length q)
           (trace w ++ read_turns ObjectIdentifier_value env (completions w) q
              ++ [LDeferred Any ErrorPDU Fn_next_request])).
Proof.
  induction q as [|p rest IH]; intros w fuel Hr Hd Hf Hq Hclean.
  - cbn [length Nat.mul Nat.add loop].
    rewrite (turn_advance env w Hr Hd). cbn [call_deferred].
    unfold next_request. cbn [log set_deferred_fns point_queue]. rewrite Hq.
    rewrite turn_exit by reflexivity.
    f_equal. destruct w; cbn in *; subst.
    rewrite !app_nil_r, Nat.add_0_r. reflexivity.
  - replace (2 * length (p :: rest) + 2 + fuel)
      with (S (S (2 * length rest + 2 + fuel))) by (cbn [length]; lia).
    cbn [loop].
    rewrite (turn_advance env w Hr Hd). cbn [call_deferred].
    unfold next_request. cbn [log set_deferred_fns point_queue]. rewrite Hq.
    destruct (outcome_of get_datatype cast_out (respond env (completions w)))
      as [o|] eqn:Ho.
    2:{ exfalso. apply (Hclean 0); [cbn; lia|]. rewrite Nat.add_0_r. exact Ho. }
    erewrite turn_completion_clean with (o := o);
      [ | | | cbn; rewrite Hf; reflexivity | reflexivity | exact Ho ];
      [ | cbn; exact Hr | reflexivity ].
    rewrite IH; [ | cbn; exact Hr | reflexivity | reflexivity | reflexivity | ].
    + f_equal. destruct w; cbn in *; subst.
      rewrite Ho. unfold outcomes. rewrite <- !app_assoc. cbn [app].
      f_equal. lia.
    + intros i Hi. cbn. specialize (Hclean (S i)).
      rewrite Nat.add_succ_r in Hclean. apply Hclean. cbn. lia.
Qed.

(** ** The sample's configuration: a poll every 500 ms *)

Lemma PrairieDog_init_500 (w : W) :
  PrairieDog_init 500 w = Return (install_task (set_decay 10%float w)).
Proof. reflexivity. Qed.

Lemma decays_from_10 (j : nat) :
  1 <= j <= 9 -> PyNum.eq_int (decays j 10%float) 0 = false.
Proof.
  intros [H1 H2].
  do 10 (destruct j as [|j]; [try lia; reflexivity|]). lia.
Qed.

Lemma decays_10_from_10 : PyNum.eq_int (decays 10 10%float) 0 = true.
Proof. reflexivity. Qed.

Lemma statuses_S (env : Env Any ErrorPDU) (from n : nat) :
  statuses env from (S n) = statuses env from n ++ [observe env (from + n)].
Proof. unfold statuses. rewrite seq_S, map_app. reflexivity. Qed.

(** The loop as [main] starts it. *)
Lemma main_unfold (pts : list Point) (env : Env Any ErrorPDU) (fuel : nat) :
  main' pts env fuel
  = match loop' fuel env
            (set_running true
               (install_task
                  (set_decay 10%float
                     (ReadPointListApplication_init Any PyValue ErrorPDU pts)))) with
    | Exited w => Finished w (dump pts (response_values w))
    | r => NotFinished r
    end.
Proof. reflexivity. Qed.

(** A run of polls that exhausts the decay counter: the last poll writes
    the diagnostic and stops the loop, which exits at its next turn. *)
Lemma loop_abort (env : Env Any ErrorPDU) (n : nat) (w : W) (fuel : nat) :
  running w = true -> deferred_fns w = [] -> in_flight w = [] ->
  task_installed w = true ->
  (forall j, j < S n -> observe env (polls w + j) <> 0%Z) ->
  (forall j, 1 <= j <= n -> PyNum.eq_int (decays j (decay w)) 0 = false) ->
  PyNum.eq_int (decays (S n) (decay w)) 0 = true ->
  loop' (n + S (S fuel)) env w
  = Exited
      (stop (stderr_write (String.append "registration failed" newline)
               (set_decay (decays (S n) (decay w))
                  (begin_poll (observe env (polls w + n))
                     (after_polls env n w))))).
Proof.
  intros Hr Hd Hf Ht Hobs Hdec Hzero.
  rewrite loop_polls; try assumption.
  2:{ intros j Hj. apply Hobs. lia. }
  destruct (after_polls_fields env n w)
    as (H1 & H2 & H3 & H4 & H5 & H6 & H7 & H8 & H9 & H10 & H11 & H12).
  cbn [loop].
  rewrite turn_poll_abort.
  - rewrite turn_exit by reflexivity.
    rewrite H3, H10, <- decays_S. reflexivity.
  - rewrite H5. exact Hr.
  - rewrite H6. exact Hd.
  - rewrite H7. exact Hf.
  - rewrite H4. exact Ht.
  - rewrite H10. apply Hobs. lia.
  - rewrite H3, <- decays_S. exact Hzero.
Qed.

Lemma combine_nil_r (A B : Type) (l : list A) : combine l (@nil B) = [].
Proof. destruct l; reflexivity. Qed.

(** C5. With the poll every 500 ms of the sample the budget is 10 polls.
    When none of the first 10 polls sees the registration succeed, the run
    ends at the tenth: the loop is stopped by that poll and takes no other
    turn, the diagnostic is on the standard error once, no request was
    submitted, there is no response value (fewer than the points of a
    non-empty list), and [main] prints no line. *)
Theorem registration_timeout_aborts (pts : list Point)
    (env : Env Any ErrorPDU) (fuel : nat) :
  (forall k, k < 10 -> observe env k <> 0%Z) ->
  exists w,
    main' pts env (11 + fuel) = Finished w []
    /\ stderr w = [String.append "registration failed" newline]
    /\ running w = false
    /\ polls w = 10
    /\ trace w = map (LPoll Any ErrorPDU) (statuses env 0 10)
    /\ requests_sent w = []
    /\ response_values w = []
    /\ (pts <> [] -> length (response_values w) < length pts).
Proof.
  intros Hobs. rewrite main_unfold.
  remember (set_running true
              (install_task
                 (set_decay 10%float
                    (ReadPointListApplication_init Any PyValue ErrorPDU pts))))
    as W0 eqn:EW0.
  assert (F : running W0 = true /\ deferred_fns W0 = [] /\ in_flight W0 = []
              /\ task_installed W0 = true /\ polls W0 = 0 /\ decay W0 = 10%float
              /\ stderr W0 = [] /\ requests_sent W0 = []
              /\ response_values W0 = [] /\ trace W0 = [])
    by (subst W0; cbn; auto 12).
  clear EW0.
  destruct F as (Fr & Fd & Ff & Ft & Fp & Fdec & Fse & Frs & Frv & Ftr).
  change (11 + fuel) with (9 + S (S fuel)).
  rewrite loop_abort; try assumption.
  - pose proof (after_polls_fields env 9 W0) as HAP. cbv zeta in HAP.
    remember (after_polls env 9 W0) as AP eqn:EAP. clear EAP.
    destruct HAP as (H1 & H2 & H3 & H4 & H5 & H6 & H7 & H8 & H9 & H10 & H11 & H12).
    eexists. split; [|split; [|split; [|split; [|split; [|split; [|split]]]]]].
    + cbv beta iota. unfold dump.
      cbn [stop stderr_write set_decay begin_poll response_values].
      rewrite H2, Frv, combine_nil_r. reflexivity.
    + cbn [stop stderr_write set_decay begin_poll stderr]. rewrite H8, Fse. reflexivity.
    + reflexivity.
    + cbn [stop stderr_write set_decay begin_poll polls]. rewrite H10, Fp. reflexivity.
    + cbn [stop stderr_write set_decay begin_poll trace].
      rewrite H12, Ftr, Fp, statuses_S. cbn [app Nat.add]. rewrite map_app. reflexivity.
    + cbn [stop stderr_write set_decay begin_poll requests_sent]. rewrite H9, Frs. reflexivity.
    + cbn [stop stderr_write set_decay begin_poll response_values]. rewrite H2, Frv. reflexivity.
    + cbn [stop stderr_write set_decay begin_poll response_values]. rewrite H2, Frv.
      intros Hne. destruct pts; [contradiction | cbn [length]; apply Nat.lt_0_succ].
  - intros j Hj. rewrite Fp. apply Hobs. exact Hj.
  - intros j Hj. rewrite Fdec. apply decays_from_10. exact Hj.
  - rewrite Fdec. exact decays_10_from_10.
Qed.

(** Polls without success, then the successful one, then the reads. *)
Lemma loop_clean_run (env : Env Any ErrorPDU) (k : nat) (w : W) (fuel : nat) :
  running w = true -> deferred_fns w = [] -> in_flight w = [] ->
  task_installed w = true ->
  (forall j, j < k -> observe env (polls w + j) <> 0%Z) ->
  observe env (polls w + k) = 0%Z ->
  (forall j, 1 <= j <= k -> PyNum.eq_int (decays j (decay w)) 0 = false) ->
  (forall i, i < length (point_queue w) ->
             clean get_datatype cast_out (respond env (completions w + i))) ->
  loop' (k + S (2 * length (point_queue w) + 2 + fuel)) env w
  = Exited
      (MkWorld []
         (response_values w
            ++ outcomes get_datatype cast_out env (completions w)
                 (length (point_queue w)))
         0%Z (decays k (decay w)) false false [] [] (stderr w)
         (requests_sent w
            ++ map (build_request ObjectIdentifier_value) (point_queue w))
         (S (polls w + k)) (completions w + length (point_queue w))
         (trace w ++ map (LPoll Any ErrorPDU) (statuses env (polls w) k)
            ++ LPoll Any ErrorPDU 0
            :: read_turns ObjectIdentifier_value env (completions w) (point_queue w)
            ++ [LDeferred Any ErrorPDU Fn_next_request])).
Proof.
  intros Hr Hd Hf Ht Hobs Hok Hdec Hclean.
  rewrite loop_polls; try assumption.
  pose proof (after_polls_fields env k w) as HAP. cbv zeta in HAP.
  remember (after_polls env k w) as AP eqn:EAP. clear EAP.
  destruct HAP as (H1 & H2 & H3 & H4 & H5 & H6 & H7 & H8 & H9 & H10 & H11 & H12).
  cbn [loop].
  rewrite turn_poll_success;
    [ | rewrite H5; exact Hr | rewrite H6; exact Hd | rewrite H7; exact Hf
      | rewrite H4; exact Ht | rewrite H10; exact Hok ].
  rewrite loop_reads with (q := point_queue w).
  - f_equal.
    cbn [suspend_task deferred begin_poll point_queue response_values
         registrationStatus decay task_installed running deferred_fns
         in_flight stderr requests_sent polls completions trace].
    rewrite H2, H3, H8, H9, H10, H11, H12.
    rewrite <- !app_assoc. reflexivity.
  - cbn. rewrite H5. exact Hr.
  - cbn. rewrite H6, Hd. reflexivity.
  - cbn. rewrite H7. exact Hf.
  - cbn. exact H1.
  - intros i Hi. cbn. rewrite H11. apply Hclean. exact Hi.
Qed.

(** ** Counting outcomes *)

Lemma process_task_results (v : W) :
  response_values (process_task v) = response_values v
  /\ completions (process_task v) = completions v.
Proof.
  unfold process_task. destruct (registrationStatus v =? 0)%Z; [cbn; auto|].
  destruct (PyNum.eq_int _ 0); cbn; auto.
Qed.

Lemma next_request_results (v : W) :
  response_values (advance v) = response_values v
  /\ completions (advance v) = completions v.
Proof. unfold next_request. destruct (point_queue v); cbn; auto. Qed.

(** ** The final dump *)




(** ** The task and its counter *)

Ltac fields :=
  cbn [point_queue response_values registrationStatus decay task_installed
       running deferred_fns in_flight stderr requests_sent polls completions
       trace suspend_task deferred begin_poll set_decay stop stderr_write log
       set_deferred_fns set_point_queue request_io set_in_flight
       count_completion set_running install_task response_values_append
       ReadPointListApplication_init negb length app].

Lemma complete_request_keeps_task (iocb : IOCB Any ErrorPDU) (w w' : W) :
  complete iocb w = Return w' ->
  polls w' = polls w /\ decay w' = decay w.
Proof.
  unfold complete_request.
  destruct (ioResponse iocb) as [apdu|].
  - destruct (get_datatype _ _) as [datatype|]; [|discriminate].
    destruct (decode_value cast_out datatype apdu); [|discriminate].
    cbn [bind]. destruct (ioError iocb); intros [= <-]; cbn; auto.
  - cbn [bind]. destruct (ioError iocb); intros [= <-]; cbn; auto.
Qed.

Lemma decays_10_stop (n : nat) :
  n < 10 ->
  PyNum.eq_int (decays (S n) 10%float) 0 = false -> S n < 10.
Proof.
  intros Hn Hz. destruct (Nat.eq_dec n 9) as [-> | Hne]; [|lia].
  rewrite decays_10_from_10 in Hz. discriminate Hz.
Qed.

(** ** Completions that do not decode *)

(** X5. A response whose datatype resolves but whose value does not cast
    out makes the handler raise the exception of [cast_out], whatever else
    the completion carries: the turn that delivers it ends with that
    exception, no value is recorded and no advance is posted. *)
Theorem cast_out_failure_raises (env : Env Any ErrorPDU) (w : W) iocb rest
    apdu datatype e :
  running w = true ->
  deferred_fns w = [] ->
  in_flight w = iocb :: rest ->
  ioCallback iocb = [Cb_complete_request] ->
  fst (respond env (completions w)) = Some apdu ->
  get_datatype (fst (objectIdentifier apdu)) (propertyIdentifier apdu)
    = Some datatype ->
  decode_value cast_out datatype apdu = Raise e ->
  exists w1,
    turn' env w = Uncaught e w1
    /\ response_values w1 = response_values w
    /\ deferred_fns w1 = []
    /\ point_queue w1 = point_queue w
    /\ requests_sent w1 = requests_sent w.
Proof.
  intros Hrun Hdef Hfl Hcb Hresp Hdt Hdec.
  rewrite (turn_completion env w Hrun Hdef Hfl Hcb). cbv zeta.
  unfold complete_request at 1. cbn [completed ioResponse].
  rewrite Hresp, Hdt, Hdec. cbn [bind].
  eexists. split; [reflexivity|]. fields. rewrite Hdef. auto.
Qed.

Lemma firstn_length_app (A : Type) (l l' : list A) :
  firstn (length l) (l ++ l') = l.
Proof. rewrite firstn_app, Nat.sub_diag, firstn_all. cbn. apply app_nil_r. Qed.

(** X8. When the handler returns it has appended one value for the
    response if there is one, then one for the error if there is one, and
    posted exactly one advance; it has not touched the point queue, the
    requests in flight or sent, the task, the loop's running flag or the
    standard error. *)
Theorem complete_request_only_records (iocb : IOCB Any ErrorPDU) (w w' : W) :
  complete iocb w = Return w' ->
  length (response_values w')
    = length (response_values w)
      + match ioResponse iocb with Some _ => 1 | None => 0 end
      + match ioError iocb with Some _ => 1 | None => 0 end
  /\ firstn (length (response_values w)) (response_values w') = response_values w
  /\ deferred_fns w' = deferred_fns w ++ [Fn_next_request]
  /\ point_queue w' = point_queue w
  /\ in_flight w' = in_flight w
  /\ requests_sent w' = requests_sent w
  /\ task_installed w' = task_installed w
  /\ decay w' = decay w
  /\ running w' = running w
  /\ stderr w' = stderr w.
Proof.
  unfold complete_request.
  destruct (ioResponse iocb) as [apdu|].
  - destruct (get_datatype _ _) as [datatype|]; [|discriminate].
    destruct (decode_value cast_out datatype apdu); [|discriminate].
    cbn [bind]. destruct (ioError iocb); intros [= <-]; fields;
      (split; [rewrite ?length_app; cbn [length]; lia|]);
      (split; [rewrite <- ?app_assoc; apply firstn_length_app|]);
      repeat split; reflexivity.
  - cbn [bind]. destruct (ioError iocb); intros [= <-]; fields;
      (split; [rewrite ?length_app; cbn [length]; lia|]);
      (split; [first [apply firstn_length_app | apply firstn_all]|]);
      repeat split; reflexivity.
Qed.

(** ** Response values never outnumber the points *)

Lemma complete_request_length (iocb : IOCB Any ErrorPDU) (w w' : W) :
  complete iocb w = Return w' ->
  length (response_values w')
  = length (response_values w)
    + match ioResponse iocb with Some _ => 1 | None => 0 end
    + match ioError iocb with Some _ => 1 | None => 0 end
  /\ completions w' = completions w.
Proof.
  unfold complete_request.
  destruct (ioResponse iocb) as [apdu|].
  - destruct (get_datatype _ _) as [datatype|]; [|discriminate].
    destruct (decode_value cast_out datatype apdu); [|discriminate].
    cbn [bind]. destruct (ioError iocb); intros [= <-]; fields;
      rewrite ?length_app; cbn [length]; (split; [lia | reflexivity]).
  - cbn [bind]. destruct (ioError iocb); intros [= <-]; fields;
      rewrite ?length_app; cbn [length]; (split; [lia | reflexivity]).
Qed.

Lemma turn_at_most_one (pts : list Point) (env : Env Any ErrorPDU) (w : W) :
  (forall k, one_sided (respond env k)) ->
  Inv' pts w ->
  length (response_values w) <= completions w ->
  match turn' env w with
  | Continue w' | Uncaught _ w' => length (response_values w') <= completions w'
  | _ => True
  end.
Proof.
  intros Hone HI Hle. destruct (running w) eqn:Hrun;
    [|rewrite turn_exit by assumption; exact I].
  destruct HI as [HW | HS].
  - destruct HW as (Hti & Hd & Hf & _).
    rewrite turn_poll by assumption.
    destruct (process_task_results (begin_poll (observe env (polls w)) w)) as [E1 E2].
    rewrite E1, E2. exact Hle.
  - destruct HS as (Hti & _ & _ & _ & [(Hd & Hf & _) | [(Hd & (p & Hf) & _) | (Hd & Hf & _)]]).
    + rewrite (turn_advance env w Hrun Hd). cbn [call_deferred].
      destruct (next_request_results
                  (log (LDeferred Any ErrorPDU Fn_next_request) (set_deferred_fns [] w)))
        as [E1 E2].
      rewrite E1, E2. exact Hle.
    + rewrite (turn_completion env w Hrun Hd Hf eq_refl). cbv zeta.
      destruct (complete_request _ _ _ _) as [w2|e] eqn:E.
      * destruct (complete_request_length _ _ E) as [E1 E2].
        rewrite E1, E2. fields. unfold completed. cbn [ioResponse ioError].
        destruct (Hone (completions w)) as [H | H]; rewrite H;
          destruct (fst (respond env (completions w))),
                   (snd (respond env (completions w))); lia.
      * fields. lia.
    + unfold turn. rewrite Hrun, Hd, Hf, Hti. exact I.
Qed.

Lemma loop_at_most_one (pts : list Point) (env : Env Any ErrorPDU) (fuel : nat) :
  (forall k, one_sided (respond env k)) ->
  forall w : W,
    Inv' pts w ->
    length (response_values w) <= completions w ->
    length (response_values (last_world (loop' fuel env w)))
    <= completions (last_world (loop' fuel env w)).
Proof.
  intros Hone. induction fuel as [|fuel IH]; intros w HI Hle; [exact Hle|].
  cbn [loop]. pose proof (turn_Inv env HI) as HT.
  pose proof (turn_at_most_one env Hone HI Hle) as HC.
  destruct (turn' env w); cbn [last_world]; auto.
Qed.

(** X6. When no completion carries both a response and an error, in every
    run and at every moment there are no more response values than
    completions delivered and no more completions than configured points;
    so the final [zip] cuts no response value off: the dump has one line
    for each response value. *)
Theorem dump_drops_no_value (pts : list Point) (interval : Z)
    (env : Env Any ErrorPDU) (fuel : nat) (w0 : W) :
  PrairieDog_init interval (ReadPointListApplication_init Any PyValue ErrorPDU pts)
    = Return w0 ->
  (forall k, one_sided (respond env k)) ->
  let w := last_world (run' fuel env w0) in
  length (response_values w) <= completions w
  /\ completions w <= length pts
  /\ length (dump pts (response_values w)) = length (response_values w).
Proof.
  intros Hinit Hone. cbv zeta.
  assert (H1 : length (response_values (last_world (run' fuel env w0)))
               <= completions (last_world (run' fuel env w0))).
  { apply (@loop_at_most_one pts env fuel Hone).
    - apply (Inv_start _ _ Hinit).
    - apply PrairieDog_init_Return in Hinit. destruct Hinit as [d ->]. cbn. lia. }
  assert (H2 : completions (last_world (run' fuel env w0)) <= length pts).
  { destruct (@run_Inv pts interval env fuel w0 Hinit) as [HW | HS].
    - destruct HW as (_ & _ & _ & _ & _ & _ & Hc & _). rewrite Hc. lia.
    - destruct HS as (_ & _ & _ & (done & Hpts & _ & Hlen) & _).
      apply (f_equal (@length Point)) in Hpts. rewrite length_app in Hpts. lia. }
  split; [exact H1|]. split; [exact H2|].
  unfold dump. rewrite length_combine. lia.
Qed.

(** ** The empty point list *)

(** X7. With an empty point list the first advance after the successful
    poll finds the queue empty and stops the loop: no request is
    submitted, nothing is recorded or written to the standard error, and
    [main] prints nothing. *)
Theorem empty_point_list_stops (env : Env Any ErrorPDU) (k fuel : nat) :
  k < 10 ->
  (forall j, j < k -> observe env j <> 0%Z) ->
  observe env k = 0%Z ->
  exists w,
    main' [] env (k + 3 + fuel) = Finished w []
    /\ requests_sent w = []
    /\ response_values w = []
    /\ completions w = 0
    /\ stderr w = []
    /\ trace w
       = map (LPoll Any ErrorPDU) (statuses env 0 k)
           ++ [LPoll Any ErrorPDU 0; LDeferred Any ErrorPDU Fn_next_request].
Proof.
  intros Hk Hobs Hok. rewrite main_unfold.
  remember (set_running true
              (install_task
                 (set_decay 10%float
                    (ReadPointListApplication_init Any PyValue ErrorPDU []))))
    as W0 eqn:EW0.
  assert (F : running W0 = true /\ deferred_fns W0 = [] /\ in_flight W0 = []
              /\ task_installed W0 = true /\ polls W0 = 0 /\ decay W0 = 10%float
              /\ stderr W0 = [] /\ requests_sent W0 = []
              /\ response_values W0 = [] /\ trace W0 = []
              /\ point_queue W0 = [] /\ completions W0 = 0)
    by (subst W0; cbn; auto 14).
  clear EW0.
  destruct F as (Fr & Fd & Ff & Ft & Fp & Fdec & Fse & Frs & Frv & Ftr & Fq & Fc).
  assert (Hrun := @loop_clean_run env k W0 fuel Fr Fd Ff Ft).
  rewrite Fq, Fc, Fp, Fse, Frs, Frv, Ftr, Fdec in Hrun.
  cbn [app Nat.add Nat.mul length map read_turns] in Hrun.
  replace (k + 3 + fuel) with (k + S (S (S fuel))) by lia.
  rewrite Hrun; try assumption.
  - eexists. split; [reflexivity|]. fields. auto 10.
  - intros j Hj. apply decays_from_10. lia.
  - intros i Hi. lia.
Qed.

(** ** Intervals that divide the five seconds *)

Lemma decays_1 (d : float) : decays 1 d = PyNum.sub_int d 1.
Proof. reflexivity. Qed.

Lemma first_zero_spec (fuel : nat) :
  forall d n,
    first_zero fuel d = Some n ->
    1 <= n
    /\ PyNum.eq_int (decays n d) 0 = true
    /\ forall j, 1 <= j < n -> PyNum.eq_int (decays j d) 0 = false.
Proof.
  induction fuel as [|fuel IH]; intros d n; [discriminate|].
  cbn [first_zero]. cbv zeta.
  destruct (PyNum.eq_int (PyNum.sub_int d 1) 0) eqn:Hz.
  - intros [= <-]. split; [lia|]. split; [exact Hz|]. intros j Hj. lia.
  - destruct (first_zero fuel (PyNum.sub_int d 1)) as [m|] eqn:Hm; [|discriminate].
    cbn [option_map]. intros [= <-].
    destruct (IH _ _ Hm) as (H1 & H2 & H3).
    split; [lia|]. split; [exact H2|].
    intros [|[|j]] Hj; [lia | exact Hz |].
    apply (H3 (S j)). lia.
Qed.

Lemma divides_5000 (interval : Z) :
  (0 < interval)%Z -> (5000 mod interval = 0)%Z -> In interval divisors_5000.
Proof.
  intros Hpos Hmod.
  assert (Hle : (interval <= 5000)%Z).
  { apply Z.divide_pos_le; [lia|]. apply Z.mod_divide; [lia | exact Hmod]. }
  assert (Hin : In interval
                  (filter (fun i => (5000 mod i =? 0)%Z)
                     (map Z.of_nat (seq 1 5000)))).
  { apply filter_In. split.
    - apply in_map_iff. exists (Z.to_nat interval). split; [lia|].
      apply in_seq. lia.
    - apply Z.eqb_eq. exact Hmod. }
  replace (filter (fun i => (5000 mod i =? 0)%Z) (map Z.of_nat (seq 1 5000)))
    with divisors_5000 in Hin by (vm_compute; reflexivity).
  exact Hin.
Qed.

Lemma divisors_on_time : forallb zero_on_time divisors_5000 = true.
Proof. vm_compute. reflexivity. Qed.

(** X4. For every poll interval that divides 5000 ms the counter is the
    exact quotient: when none of the first [5000 / interval] polls sees the
    registration succeed, the run ends at exactly that poll, with the
    diagnostic written once and nothing submitted or recorded. *)
Theorem abort_on_time (pts : list Point) (interval : Z)
    (env : Env Any ErrorPDU) (fuel : nat) :
  (0 < interval)%Z ->
  (5000 mod interval = 0)%Z ->
  (forall k, k < Z.to_nat (5000 / interval) -> observe env k <> 0%Z) ->
  exists w0 w,
    PrairieDog_init interval (ReadPointListApplication_init Any PyValue ErrorPDU pts)
      = Return w0
    /\ run' (Z.to_nat (5000 / interval) + 1 + fuel) env w0 = Exited w
    /\ polls w = Z.to_nat (5000 / interval)
    /\ stderr w = [String.append "registration failed" newline]
    /\ requests_sent w = []
    /\ response_values w = [].
Proof.
  intros Hpos Hmod Hobs.
  pose proof (divides_5000 Hpos Hmod) as Hin.
  pose proof divisors_on_time as Hall. rewrite forallb_forall in Hall.
  specialize (Hall _ Hin). unfold zero_on_time in Hall.
  unfold PrairieDog_init.
  destruct (PyNum.truediv (5 * 1000) interval) as [d|] eqn:Hd; [|discriminate].
  destruct (first_zero 5000 d) as [n|] eqn:Hn; [|discriminate].
  apply Nat.eqb_eq in Hall. rewrite <- Hall in *. clear Hall.
  destruct (first_zero_spec _ _ Hn) as (H1 & Hz & Hnz).
  destruct n as [|m]; [lia|].
  cbn [bind].
  exists (install_task
            (set_decay d (ReadPointListApplication_init Any PyValue ErrorPDU pts))).
  unfold run.
  remember (set_running true
              (install_task
                 (set_decay d (ReadPointListApplication_init Any PyValue ErrorPDU pts))))
    as W0 eqn:EW0.
  assert (F : running W0 = true /\ deferred_fns W0 = [] /\ in_flight W0 = []
              /\ task_installed W0 = true /\ polls W0 = 0 /\ decay W0 = d
              /\ stderr W0 = [] /\ requests_sent W0 = []
              /\ response_values W0 = [])
    by (subst W0; cbn; auto 12).
  clear EW0.
  destruct F as (Fr & Fd & Ff & Ft & Fp & Fdec & Fse & Frs & Frv).
  replace (S m + 1 + fuel) with (m + S (S fuel)) by lia.
  rewrite loop_abort; try assumption.
  - pose proof (after_polls_fields env m W0) as HAP. cbv zeta in HAP.
    remember (after_polls env m W0) as AP eqn:EAP. clear EAP.
    destruct HAP as (_ & H2 & _ & _ & _ & _ & _ & H8 & H9 & H10 & _ & _).
    eexists. split; [reflexivity|]. split; [reflexivity|]. fields.
    rewrite H2, H8, H9, H10, Fp, Fse, Frs, Frv. auto.
  - intros j Hj. rewrite Fp. apply Hobs. exact Hj.
  - intros j Hj. rewrite Fdec. apply Hnz. lia.
  - rewrite Fdec. exact Hz.
Qed.

End Properties.

(** * The sample on the concrete stack *)

Unset Implicit Arguments.

Lemma Demo_world0_init :
  PrairieDog_init 500
    (ReadPointListApplication_init Demo.Any Demo.PyValue Demo.ErrorPDU Demo.point_list)
  = Return (Demo.world0 Demo.point_list).
Proof. reflexivity. Qed.

Lemma Demo_env_ok_clean (k : nat) :
  clean Demo.get_datatype Demo.cast_out (respond Demo.env_ok k).
Proof. unfold clean. cbn. discriminate. Qed.

Lemma array_index_decoding_witness :
  complete_request Demo.get_datatype Demo.cast_out Demo.iocb_count Demo.world_busy
  = Return (deferred Fn_next_request
              (response_values_append
                 (DecodedValue Demo.ErrorPDU (Unsigned, 16%Z)) Demo.world_busy)).
Proof.
  exact (proj1 (@array_index_decoding Demo.Any Demo.PyValue Demo.ErrorPDU
                  Demo.get_datatype Demo.cast_out Demo.iocb_count Demo.world_busy
                  _ (ArrayOf (OtherClass "PriorityValue"))
                  eq_refl eq_refl eq_refl)
               eq_refl eq_refl).
Defined.

Lemma unknown_datatype_raises_witness :
  complete_request Demo.get_datatype Demo.cast_out
    (completed (new_iocb Demo.Any Demo.ErrorPDU Demo.request1)
       (respond Demo.env_unknown (completions Demo.world_busy)))
    Demo.world_busy
  = Raise (TypeError "unknown datatype").
Proof.
  exact (proj1 (@unknown_datatype_raises Demo.Any Demo.PyValue Demo.ErrorPDU
                  Demo.ObjectIdentifier_value Demo.get_datatype Demo.cast_out
                  Demo.env_unknown Demo.world_busy
                  (new_iocb Demo.Any Demo.ErrorPDU Demo.request1) []
                  Demo.ack_unknown
                  eq_refl eq_refl eq_refl eq_refl eq_refl eq_refl)).
Defined.

(** C2, counterexample. On the acknowledgement of a property the registry
    does not know, the handler does not return: there is no state in which
    a [ProtocolError] was appended and the next advance posted. *)
Lemma unknown_datatype_not_recorded :
  ~ (exists w' err,
       complete_request Demo.get_datatype Demo.cast_out Demo.iocb_unknown
         Demo.world_busy = Return w'
       /\ response_values w'
          = response_values Demo.world_busy ++ [ProtocolError Demo.PyValue err]
       /\ deferred_fns w' = deferred_fns Demo.world_busy ++ [Fn_next_request]).
Proof. intros (w' & err & H & _). vm_compute in H. discriminate H. Qed.

Lemma protocol_error_recorded_and_continues_witness :
  exists w',
    complete_request Demo.get_datatype Demo.cast_out Demo.iocb_error Demo.world_busy
      = Return w'
    /\ response_values w' = [ProtocolError Demo.PyValue "unknown-object"%string]
    /\ deferred_fns w' = [Fn_next_request].
Proof.
  destruct (@protocol_error_recorded_and_continues Demo.Any Demo.PyValue
              Demo.ErrorPDU Demo.get_datatype Demo.cast_out Demo.iocb_error
              Demo.world_busy "unknown-object"%string eq_refl eq_refl)
    as (w' & H1 & H2 & _ & _ & _ & _ & _ & H3).
  exists w'. split; [exact H1|]. split; [exact H2 | exact H3].
Defined.

Lemma Demo_env_never_fails (k : nat) :
  k < 10 -> observe Demo.env_never k <> 0%Z.
Proof. intros _. discriminate. Qed.

Lemma registration_timeout_aborts_witness :
  exists w,
    main Demo.ObjectIdentifier_value Demo.get_datatype Demo.cast_out
      Demo.point_list Demo.env_never 11 = Finished w []
    /\ stderr w = [String.append "registration failed" newline]
    /\ polls w = 10.
Proof.
  destruct (@registration_timeout_aborts Demo.Any Demo.PyValue Demo.ErrorPDU
              Demo.ObjectIdentifier_value Demo.get_datatype Demo.cast_out
              Demo.point_list Demo.env_never 0
              Demo_env_never_fails)
    as (w & H1 & H2 & _ & H3 & _).
  exists w. split; [exact H1|]. split; [exact H2 | exact H3].
Defined.

(** The scenarios of the sample's two points: both reads answered, and the
    first read rejected while the second is answered. *)
Example scenario_both_values :
  response_values Demo.final_ok
  = [DecodedValue Demo.ErrorPDU (OtherClass "Real", 0%Z);
     DecodedValue Demo.ErrorPDU (OtherClass "Real", 1%Z)].
Proof. vm_compute. reflexivity. Qed.

Example scenario_error_then_value :
  response_values
    (last_world
       (run Demo.ObjectIdentifier_value Demo.get_datatype Demo.cast_out 8
          Demo.env_error_first (Demo.world0 Demo.point_list)))
  = [ProtocolError Demo.PyValue "unknown-object"%string;
     DecodedValue Demo.ErrorPDU (OtherClass "Real", 5%Z)].
Proof. vm_compute. reflexivity. Qed.



(** C6, at a poll every 300 ms with a registration that never completes.
    The counter starts at the float [5000 / 300], strictly between 16 and
    17, not at the integer 16; after 16 unsuccessful polls it is not zero,
    after 17 it is negative; and after 1000 polls the task has still not
    written the diagnostic nor stopped the loop. *)
Theorem decay_300_never_zero :
  exists d,
    PyNum.truediv (5 * 1000) 300 = Return d
    /\ decay Demo.world300 = d
    /\ PrimFloat.ltb (PyNum.float_of_Z (5000 / 300)) d = true
    /\ PrimFloat.ltb d (PyNum.float_of_Z (5000 / 300 + 1)) = true
    /\ PyNum.eq_int (decays 16 d) 0 = false
    /\ PrimFloat.ltb (decays 17 d) (PyNum.float_of_Z 0) = true
    /\ exists w,
         run Demo.ObjectIdentifier_value Demo.get_datatype Demo.cast_out 1000
           Demo.env_never Demo.world300 = OutOfFuel w
         /\ polls w = 1000 /\ stderr w = [] /\ running w = true.
Proof.
  eexists. split; [vm_compute; reflexivity|].
  repeat (split; [vm_compute; reflexivity|]).
  eexists. split; [vm_compute; reflexivity|]. vm_compute. auto.
Qed.

(** * Further properties on the concrete stack *)

Module Demo2.

(** A [cast_out] that rejects negative payloads. *)
Definition cast_out (payload : Demo.Any) (datatype : Datatype)
  : result Demo.PyValue :=
  if (payload <? 0)%Z then Raise (DecodingError "invalid tag")
  else Return (datatype, payload).

(** Registration succeeds at once; the first read is answered with a
    payload that does not decode. *)
Definition env_bad_payload : Env Demo.Any Demo.ErrorPDU :=
  MkEnv (fun _ => 0%Z)
        (fun _ => (Some (Demo.ack_present 1 (-1)), None)).

(** The state the handler leaves when the first request is rejected. *)
Definition world_after_error : World Demo.Any Demo.PyValue Demo.ErrorPDU :=
  deferred Fn_next_request
    (response_values_append
       (ProtocolError Demo.PyValue "unknown-object"%string) Demo.world_busy).

End Demo2.

Lemma Demo_env_never_always (k : nat) : observe Demo.env_never k <> 0%Z.
Proof. discriminate. Qed.

Lemma Demo_env_ok_one_sided (k : nat) : one_sided (respond Demo.env_ok k).
Proof. right. reflexivity. Qed.

Lemma abort_on_time_witness :
  exists w0 w,
    PrairieDog_init 250
      (ReadPointListApplication_init Demo.Any Demo.PyValue Demo.ErrorPDU
         Demo.point_list) = Return w0
    /\ run Demo.ObjectIdentifier_value Demo.get_datatype Demo.cast_out 21
         Demo.env_never w0 = Exited w
    /\ polls w = 20.
Proof.
  destruct (@abort_on_time Demo.Any Demo.PyValue Demo.ErrorPDU
              Demo.ObjectIdentifier_value Demo.get_datatype Demo.cast_out
              Demo.point_list 250 Demo.env_never 0
              eq_refl eq_refl (fun k _ => Demo_env_never_always k))
    as (w0 & w & H1 & H2 & H3 & _).
  exists w0, w. split; [exact H1|]. split; [exact H2 | exact H3].
Defined.

Lemma cast_out_failure_raises_witness :
  exists w1,
    turn Demo.ObjectIdentifier_value Demo.get_datatype Demo2.cast_out
      Demo2.env_bad_payload Demo.world_busy
    = Uncaught (DecodingError "invalid tag") w1
    /\ response_values w1 = []
    /\ deferred_fns w1 = [].
Proof.
  destruct (@cast_out_failure_raises Demo.Any Demo.PyValue Demo.ErrorPDU
              Demo.ObjectIdentifier_value Demo.get_datatype Demo2.cast_out
              Demo2.env_bad_payload Demo.world_busy
              (new_iocb Demo.Any Demo.ErrorPDU Demo.request1) []
              (Demo.ack_present 1 (-1)) (OtherClass "Real")
              (DecodingError "invalid tag")
              eq_refl eq_refl eq_refl eq_refl eq_refl eq_refl eq_refl)
    as (w1 & H1 & H2 & H3 & _).
  exists w1. split; [exact H1|]. split; [exact H2 | exact H3].
Defined.

Lemma dump_drops_no_value_witness :
  length (response_values
            (last_world
               (run Demo.ObjectIdentifier_value Demo.get_datatype Demo.cast_out 5
                  Demo.env_ok (Demo.world0 Demo.point_list))))
  <= completions
       (last_world
          (run Demo.ObjectIdentifier_value Demo.get_datatype Demo.cast_out 5
             Demo.env_ok (Demo.world0 Demo.point_list))).
Proof.
  exact (proj1
           (@dump_drops_no_value Demo.Any Demo.PyValue Demo.ErrorPDU
              Demo.ObjectIdentifier_value Demo.get_datatype Demo.cast_out
              Demo.point_list 500 Demo.env_ok 5 (Demo.world0 Demo.point_list)
              Demo_world0_init Demo_env_ok_one_sided)).
Defined.

Lemma empty_point_list_stops_witness :
  exists w,
    main Demo.ObjectIdentifier_value Demo.get_datatype Demo.cast_out
      [] Demo.env_ok 3 = Finished w []
    /\ requests_sent w = [].
Proof.
  destruct (@empty_point_list_stops Demo.Any Demo.PyValue Demo.ErrorPDU
              Demo.ObjectIdentifier_value Demo.get_datatype Demo.cast_out
              Demo.env_ok 0 0
              (Nat.lt_0_succ 9)
              (fun j Hj => False_ind _ (Nat.nlt_0_r j Hj))
              eq_refl)
    as (w & H1 & H2 & _).
  exists w. split; [exact H1 | exact H2].
Defined.

Lemma complete_request_only_records_witness :
  length (response_values Demo2.world_after_error)
  = length (response_values Demo.world_busy) + 0 + 1.
Proof.
  exact (proj1
           (@complete_request_only_records Demo.Any Demo.PyValue Demo.ErrorPDU
              Demo.get_datatype Demo.cast_out Demo.iocb_error Demo.world_busy
              Demo2.world_after_error eq_refl)).
Defined.

(** * The sample under the scheduling of the library

    [turn] above serves the three kinds of work in one fixed order, so a
    poll never falls between a request and its completion, and the task
    stays suspended once [process_task] suspended it.  The library decides
    otherwise: the recurring task is due every [interval] milliseconds
    whatever else is pending, and the task manager installs a recurring
    task again after each tick.  This part runs the same methods under
    every order of events the library allows, with the parsing of a point
    as fallible as it is in the sample. *)

Module Interleaved.

Set Implicit Arguments.

Section Program.

Variables (Any PyValue ErrorPDU : Type).

(** [ObjectIdentifier(obj_id).value]: the text form resolved to the
    structured identifier; a text that is no object identifier raises
    [ValueError]. *)
Variable ObjectIdentifier_value : string -> result ObjectId.

(** [Address(addr)]: a text that is no address raises [ValueError]. *)
Variable Address_init : string -> result Address.

Variable get_datatype : string -> string -> option Datatype.
Variable cast_out : Any -> Datatype -> result PyValue.

Local Abbreviation W := (World Any PyValue ErrorPDU).

(** How a call of a method ends, with the state it leaves: a method that
    raises keeps the assignments made before the raise. *)
Inductive Exit : Type :=
| Returned (w : W)
| Threw (e : PyExc) (w : W).

(** Lines 68 to 75 of [next_request]: [ObjectIdentifier(obj_id).value],
    then the request, then [Address(addr)] as its destination. *)
Definition build_request (p : Point) : result ReadPropertyRequest :=
  let '(addr, obj_id, prop_id) := p in
  obj <- ObjectIdentifier_value obj_id ;;
  dest <- Address_init addr ;;
  Return (MkRequest obj prop_id dest).

(** [next_request]: the point leaves the queue (line 67) before its texts
    are parsed, so a point that does not parse is gone when the method
    raises. *)
Definition next_request (w : W) : Exit :=
  match point_queue w with
  | [] => Returned (stop w)
  | p :: rest =>
      let w1 := set_point_queue rest w in
      match build_request p with
      | Raise e => Threw e w1
      | Return request =>
          Returned (request_io (new_iocb Any ErrorPDU request) w1)
      end
  end.

Definition call_deferred (fn : DeferredFn) (w : W) : Exit :=
  match fn with
  | Fn_next_request => next_request w
  end.

(** What the loop of the library does next is decided by the clock and the
    network: the recurring task is due and the stack shows a registration
    status; the stack completes the in-flight IOCB number [i] (oldest
    first) with a response or an error; the core calls the oldest function
    posted with [deferred]. *)
Inductive Event : Type :=
| Tick (status : Z)
| Completion (i : nat) (r : option (ReadPropertyACK Any) * option ErrorPDU)
| CallDeferred.

Definition remove_at (i : nat) (l : list (IOCB Any ErrorPDU))
  : list (IOCB Any ErrorPDU) :=
  firstn i l ++ skipn (S i) l.

(** Modelled from the spec: [TaskManager.get_next_task] and
    [TaskManager.process_task] are not in the sample.  The spec has the
    monitor tick at a fixed interval.  The task manager takes the due task
    off its schedule, calls its [process_task] and, the task being a
    [RecurringTask], installs it again: a [suspend_task] made from inside
    [process_task] finds the task already off the schedule and does not
    keep it from ticking. *)
Definition tick (status : Z) (w : W) : W :=
  install_task (process_task (begin_poll status (suspend_task w))).

(** Modelled from the spec: [bacpypes.core.run] and the stack that
    completes an IOCB are not in the sample.  One single-threaded loop
    serves the ticks of the installed task, the completions of in-flight
    requests and the posted functions, each to its end.  An event that is
    not possible in the state leaves it as it is.  No task is taken once
    [stop] was called; what the loop still serves of the other two kinds
    before it exits is left to the events.  An exception that leaves a
    callback or a posted function is logged by the loop, which goes on
    from the state the raise left. *)
Definition step (ev : Event) (w : W) : W :=
  match ev with
  | Tick status =>
      if running w && task_installed w then tick status w else w
  | Completion i r =>
      match nth_error (in_flight w) i with
      | Some iocb =>
          let iocb' := completed iocb r in
          let w1 := log (LCompletion iocb')
                      (count_completion
                         (set_in_flight (remove_at i (in_flight w)) w)) in
          match trigger get_datatype cast_out (ioCallback iocb') iocb' w1 with
          | Return w2 => w2
          | Raise _ => w1
          end
      | None => w
      end
  | CallDeferred =>
      match deferred_fns w with
      | fn :: rest =>
          match call_deferred fn (log (LDeferred Any ErrorPDU fn)
                                    (set_deferred_fns rest w)) with
          | Returned w' => w'
          | Threw _ w' => w'
          end
      | [] => w
      end
  end.

Fixpoint exec (evs : list Event) (w : W) : W :=
  match evs with
  | [] => w
  | ev :: rest => exec rest (step ev w)
  end.

(** [run()] from the state [main] built, up to the events given. *)
Definition run (evs : list Event) (w : W) : W :=
  exec evs (set_running true w).

(** ** Vocabulary of the statements *)

(** The requests of the points that parse, in the order of the points. *)
Definition requests_of (done : list Point) : list ReadPropertyRequest :=
  flat_map (fun p => match build_request p with
                     | Return request => [request]
                     | Raise _ => []
                     end) done.

Definition is_tick (ev : Event) : bool :=
  match ev with
  | Tick _ => true
  | _ => false
  end.

(** No poll is served after the first poll that sees the registration
    succeeded. *)
Fixpoint no_poll_after_success (evs : list Event) : Prop :=
  match evs with
  | [] => True
  | Tick status :: rest =>
      if (status =? 0)%Z then Forall (fun ev => is_tick ev = false) rest
      else no_poll_after_success rest
  | _ :: rest => no_poll_after_success rest
  end.

(** Every completion carries either a protocol error or a response whose
    datatype resolves and whose value casts out. *)
Definition clean_event (ev : Event) : Prop :=
  match ev with
  | Completion _ r => clean get_datatype cast_out r
  | _ => True
  end.

(** The reads of a run in which every request is completed before the next
    one is submitted: a call of the posted [next_request], then the
    completion of its request. *)
Definition reads (rs : list (option (ReadPropertyACK Any) * option ErrorPDU))
  : list Event :=
  flat_map (fun r => [CallDeferred; Completion 0 r]) rs.

(** The requests completed so far with the response value each completion
    left, oldest first, as the trace of the loop has them. *)
Definition answers (tr : list (Label Any ErrorPDU))
  : list (ReadPropertyRequest * Outcome PyValue ErrorPDU) :=
  flat_map (fun l => match l with
                     | LCompletion iocb =>
                         match outcome_of get_datatype cast_out
                                 (ioResponse iocb, ioError iocb) with
                         | Some o => [(ioRequest iocb, o)]
                         | None => []
                         end
                     | _ => []
                     end) tr.

(** The unsuccessful polls of a trace. *)
Definition failed_polls (tr : list (Label Any ErrorPDU)) : nat :=
  length (filter (fun l => match l with
                           | LPoll _ _ status => negb (status =? 0)%Z
                           | _ => false
                           end) tr).

(** What holds of the requests in every run: each IOCB in flight has the
    one callback [next_request] gave it, the requests submitted are those
    of the points taken from the queue that parse, in the order of the
    point list, and each of them is completed or in flight. *)
Definition Sound (pts : list Point) (w : W) : Prop :=
  Forall (fun iocb => ioCallback iocb = [Cb_complete_request]) (in_flight w)
  /\ (exists done,
        pts = done ++ point_queue w
        /\ requests_sent w = requests_of done)
  /\ length (requests_sent w) = completions w + length (in_flight w).

(** Before a poll saw the registration succeeded: the driver was not
    triggered and nothing was submitted; the loop is running, or it was
    stopped with the diagnostic written. *)
Definition Idling (pts : list Point) (w : W) : Prop :=
  task_installed w = true
  /\ deferred_fns w = [] /\ in_flight w = [] /\ requests_sent w = []
  /\ response_values w = [] /\ point_queue w = pts /\ completions w = 0
  /\ answers (trace w) = []
  /\ (if running w then stderr w = [] else stderr w <> []).

(** After the successful poll and as long as no further poll was served:
    [req] being the request of each point, the requests submitted are those
    of the points taken from the queue, response value [i] is what the
    completion of request [i] left, and the driver is idle with its
    [next_request] posted, or awaits the completion of the request of the
    point it took last, or has stopped the loop on an empty queue. *)
Definition Reading (req : Point -> ReadPropertyRequest) (pts : list Point)
    (w : W) : Prop :=
  stderr w = []
  /\ length (response_values w) = completions w
  /\ answers (trace w) = combine (map req pts) (response_values w)
  /\ exists done,
       pts = done ++ point_queue w
       /\ requests_sent w = map req done
       /\ length done = completions w + length (in_flight w)
       /\ ((deferred_fns w = [Fn_next_request] /\ in_flight w = []
            /\ running w = true)
           \/ (deferred_fns w = [] /\ running w = true
               /\ exists done' p,
                    done = done' ++ [p]
                    /\ in_flight w = [new_iocb Any ErrorPDU (req p)])
           \/ (deferred_fns w = [] /\ in_flight w = []
               /\ running w = false /\ point_queue w = [])).

(** The budget of the monitor [main] creates, at every moment of a run: as
    long as the loop runs nothing was written, fewer than ten polls failed
    and the counter is ten less their number; once it is stopped, either
    the driver stopped it, or the tenth failed poll did and wrote the
    diagnostic. *)
Definition Budget (w : W) : Prop :=
  let f := failed_polls (trace w) in
  (running w = true ->
     stderr w = [] /\ decay w = decays f 10%float /\ f < 10)
  /\ (running w = false ->
        (stderr w = [] /\ f < 10)
        \/ (stderr w = [String.append "registration failed" newline]
            /\ f = 10)).

End Program.

Arguments Tick {Any ErrorPDU} status.
Arguments Completion {Any ErrorPDU} i r.
Arguments CallDeferred {Any ErrorPDU}.

(** ** Properties of every run *)

Section Facts.

Variables (Any PyValue ErrorPDU : Type).
Variable ObjectIdentifier_value : string -> result ObjectId.
Variable Address_init : string -> result Address.
Variable get_datatype : string -> string -> option Datatype.
Variable cast_out : Any -> Datatype -> result PyValue.

Local Abbreviation W := (World Any PyValue ErrorPDU).
Local Abbreviation Ev := (Event Any ErrorPDU).
Local Abbreviation build := (build_request ObjectIdentifier_value Address_init).
Local Abbreviation advance :=
  (next_request (PyValue:=PyValue) ObjectIdentifier_value Address_init).
Local Abbreviation complete := (complete_request get_datatype cast_out).
Local Abbreviation step' :=
  (step ObjectIdentifier_value Address_init get_datatype cast_out).
Local Abbreviation exec' :=
  (exec ObjectIdentifier_value Address_init get_datatype cast_out).
Local Abbreviation run' :=
  (run ObjectIdentifier_value Address_init get_datatype cast_out).
Local Abbreviation Sound' := (Sound (PyValue:=PyValue) ObjectIdentifier_value Address_init).
Local Abbreviation msg := (String.append "registration failed" newline).

Ltac fields :=
  cbn [point_queue response_values registrationStatus decay task_installed
       running deferred_fns in_flight stderr requests_sent polls completions
       trace suspend_task deferred begin_poll set_decay stop stderr_write log
       set_deferred_fns set_point_queue request_io set_in_flight
       count_completion set_running install_task response_values_append
       ReadPointListApplication_init negb length app].

Lemma exec_app (evs1 evs2 : list Ev) (w : W) :
  exec' (evs1 ++ evs2) w = exec' evs2 (exec' evs1 w).
Proof.
  revert w. induction evs1 as [|ev evs1 IH]; intro w; cbn; [reflexivity|].
  apply IH.
Qed.

(** What a tick leaves as it found it, and what it always does. *)
Lemma tick_frame (status : Z) (w : W) :
  point_queue (tick status w) = point_queue w
  /\ response_values (tick status w) = response_values w
  /\ in_flight (tick status w) = in_flight w
  /\ requests_sent (tick status w) = requests_sent w
  /\ completions (tick status w) = completions w
  /\ task_installed (tick status w) = true
  /\ polls (tick status w) = S (polls w)
  /\ trace (tick status w) = trace w ++ [LPoll Any ErrorPDU status].
Proof.
  unfold tick, process_task. fields.
  destruct (status =? 0)%Z.
  - fields. repeat split; reflexivity.
  - match goal with |- context [if ?c then _ else _] => destruct c end;
      fields; repeat split; reflexivity.
Qed.

Lemma tick_success (w : W) :
  deferred_fns (tick 0 w) = deferred_fns w ++ [Fn_next_request]
  /\ running (tick 0 w) = running w
  /\ stderr (tick 0 w) = stderr w
  /\ decay (tick 0 w) = decay w.
Proof.
  unfold tick, process_task. fields. cbn [Z.eqb]. fields.
  repeat split; reflexivity.
Qed.

Lemma tick_no_success (status : Z) (w : W) :
  status <> 0%Z ->
  deferred_fns (tick status w) = deferred_fns w
  /\ decay (tick status w) = PyNum.sub_int (decay w) 1
  /\ ((PyNum.eq_int (PyNum.sub_int (decay w) 1) 0 = false
       /\ running (tick status w) = running w
       /\ stderr (tick status w) = stderr w)
      \/ (PyNum.eq_int (PyNum.sub_int (decay w) 1) 0 = true
          /\ running (tick status w) = false
          /\ stderr (tick status w) = stderr w ++ [msg])).
Proof.
  intro Hs. unfold tick, process_task. fields.
  destruct (status =? 0)%Z eqn:E; [apply Z.eqb_eq in E; contradiction|].
  destruct (PyNum.eq_int (PyNum.sub_int (decay w) 1) 0) eqn:E0; fields.
  - repeat split; try reflexivity. right. repeat split; reflexivity.
  - repeat split; try reflexivity. left. repeat split; reflexivity.
Qed.

(** A completion of an IOCB that [next_request] made calls
    [complete_request], once. *)
Lemma step_completion (i : nat) r (w : W) (iocb : IOCB Any ErrorPDU) :
  nth_error (in_flight w) i = Some iocb ->
  ioCallback iocb = [Cb_complete_request] ->
  let iocb' := completed iocb r in
  let w1 := log (LCompletion iocb')
              (count_completion
                 (set_in_flight (remove_at i (in_flight w)) w)) in
  step' (Completion i r) w
  = match complete iocb' w1 with
    | Return w2 => w2
    | Raise _ => w1
    end.
Proof.
  intros Hn Hcb. cbn [step]. rewrite Hn. cbn [completed ioCallback].
  rewrite Hcb. cbn [trigger]. unfold bind.
  destruct (complete_request _ _ _ _); reflexivity.
Qed.

Lemma step_completion_none (i : nat) r (w : W) :
  nth_error (in_flight w) i = None -> step' (Completion i r) w = w.
Proof. intro Hn. cbn [step]. rewrite Hn. reflexivity. Qed.

Lemma remove_at_length (i : nat) (l : list (IOCB Any ErrorPDU)) iocb :
  nth_error l i = Some iocb -> S (length (remove_at i l)) = length l.
Proof.
  revert l. induction i as [|i IH]; intros [|x l] H; cbn in *; try discriminate.
  - reflexivity.
  - f_equal. apply (IH l H).
Qed.

Lemma remove_at_Forall (P : IOCB Any ErrorPDU -> Prop) (i : nat) l :
  Forall P l -> Forall P (remove_at i l).
Proof.
  revert l. induction i as [|i IH]; intros l H.
  - destruct H as [|x l Hx Hl]; [constructor|exact Hl].
  - destruct H as [|x l Hx Hl]; [constructor|].
    change (Forall P (x :: remove_at i l)). constructor; [exact Hx|].
    apply IH. exact Hl.
Qed.

Lemma requests_of_app (l1 l2 : list Point) :
  requests_of ObjectIdentifier_value Address_init (l1 ++ l2)
  = requests_of ObjectIdentifier_value Address_init l1
    ++ requests_of ObjectIdentifier_value Address_init l2.
Proof. unfold requests_of. apply flat_map_app. Qed.

(** The two ways [next_request] ends on a queue that is not empty. *)
Lemma next_request_cons (w : W) p rest :
  point_queue w = p :: rest ->
  advance w
  = match build p with
    | Raise e => Threw e (set_point_queue rest w)
    | Return request =>
        Returned (request_io (new_iocb Any ErrorPDU request)
                    (set_point_queue rest w))
    end.
Proof. intro H. unfold next_request. rewrite H. reflexivity. Qed.

Lemma next_request_nil (w : W) :
  point_queue w = [] -> advance w = Returned (stop w).
Proof. intro H. unfold next_request. rewrite H. reflexivity. Qed.

Lemma step_Sound (pts : list Point) (ev : Ev) (w : W) :
  Sound' pts w -> Sound' pts (step' ev w).
Proof.
  intros (Hcb & (done & Hpts & Hreq) & Hlen).
  destruct ev as [status | i r |].
  - cbn [step]. destruct (running w && task_installed w);
      [|repeat split; eauto].
    destruct (tick_frame status w) as (Hq & _ & Hf & Hr & Hc & _).
    unfold Sound. rewrite Hq, Hf, Hr, Hc. repeat split; eauto.
  - destruct (nth_error (in_flight w) i) as [iocb|] eqn:Hn.
    + assert (Hi : ioCallback iocb = [Cb_complete_request]).
      { rewrite Forall_forall in Hcb. apply Hcb.
        apply nth_error_In with i. exact Hn. }
      rewrite (step_completion i r w Hn Hi). cbv zeta.
      pose proof (remove_at_length i (in_flight w) Hn) as Hl.
      pose proof (remove_at_Forall i Hcb) as Hf.
      set (w1 := log _ _).
      assert (S1 : Sound' pts w1).
      { unfold Sound, w1. fields. repeat split; eauto. lia. }
      destruct (complete _ w1) as [w2|e] eqn:Hc; [|exact S1].
      destruct (complete_request_frame _ _ _ _ Hc)
        as (Hq & _ & _ & _ & Hfl & _ & Hr & Hco & _).
      destruct S1 as (A & B & C).
      unfold Sound. rewrite Hq, Hfl, Hr, Hco. repeat split; assumption.
    + rewrite (step_completion_none i r w Hn). repeat split; eauto.
  - cbn [step]. destruct (deferred_fns w) as [|fn rest] eqn:Hd;
      [repeat split; eauto|].
    destruct fn. cbn [call_deferred].
    set (w1 := log _ _).
    assert (Hq1 : point_queue w1 = point_queue w) by reflexivity.
    destruct (point_queue w) as [|p q] eqn:Hq.
    + rewrite (next_request_nil w1 Hq1).
      unfold Sound, w1. fields. rewrite Hq. repeat split; eauto.
    + rewrite (next_request_cons w1 Hq1).
      destruct (build p) as [request|e] eqn:Hb.
      * unfold Sound, w1. fields. cbn [new_iocb ioRequest].
        split; [|split].
        -- apply Forall_app. split; [exact Hcb|].
           constructor; [reflexivity|constructor].
        -- exists (done ++ [p]). split.
           ++ rewrite <- app_assoc. exact Hpts.
           ++ rewrite requests_of_app, Hreq. f_equal.
              unfold requests_of. cbn [flat_map]. rewrite Hb. reflexivity.
        -- rewrite !length_app. cbn [length]. lia.
      * unfold Sound, w1. fields. split; [exact Hcb|split].
        -- exists (done ++ [p]). split.
           ++ rewrite <- app_assoc. exact Hpts.
           ++ rewrite requests_of_app, Hreq.
              unfold requests_of. cbn [flat_map]. rewrite Hb.
              rewrite !app_nil_r. reflexivity.
        -- exact Hlen.
Qed.


Lemma Sound_start (pts : list Point) (interval : Z) (w0 : W) :
  PrairieDog_init interval (ReadPointListApplication_init Any PyValue ErrorPDU pts)
    = Return w0 ->
  Sound' pts (set_running true w0).
Proof.
  intro H. destruct (PrairieDog_init_Return _ _ H) as (d & ->).
  unfold Sound. fields. repeat split.
  - constructor.
  - exists []. split; reflexivity.
Qed.

(** *** The requests of a run *)


(** *** Response values and completions *)

Lemma step_counted (pts : list Point) (ev : Ev) (w : W) :
  Sound' pts w ->
  clean_event get_datatype cast_out ev ->
  length (response_values w) = completions w ->
  length (response_values (step' ev w)) = completions (step' ev w).
Proof.
  intros (Hcb & _ & _) Hclean Hcount.
  destruct ev as [status | i r |].
  - cbn [step]. destruct (running w && task_installed w); [|exact Hcount].
    destruct (tick_frame status w) as (_ & Hr & _ & _ & Hc & _).
    rewrite Hr, Hc. exact Hcount.
  - destruct (nth_error (in_flight w) i) as [iocb|] eqn:Hn.
    + assert (Hi : ioCallback iocb = [Cb_complete_request]).
      { rewrite Forall_forall in Hcb. apply Hcb.
        apply nth_error_In with i. exact Hn. }
      rewrite (step_completion i r w Hn Hi). cbv zeta.
      cbn [clean_event] in Hclean. unfold clean in Hclean.
      destruct (outcome_of get_datatype cast_out r) as [o|] eqn:Ho;
        [|contradiction].
      rewrite (@complete_request_clean _ _ _ get_datatype cast_out
                 (completed iocb r) _ o).
      * fields. rewrite length_app. cbn [length]. lia.
      * destruct r as [a b]. exact Ho.
    + rewrite (step_completion_none i r w Hn). exact Hcount.
  - cbn [step]. destruct (deferred_fns w) as [|fn rest]; [exact Hcount|].
    destruct fn. cbn [call_deferred]. unfold next_request. fields.
    destruct (point_queue w) as [|p q]; [exact Hcount|].
    destruct (build p); exact Hcount.
Qed.

Lemma exec_counted (pts : list Point) (evs : list Ev) (w : W) :
  Sound' pts w ->
  Forall (clean_event get_datatype cast_out) evs ->
  length (response_values w) = completions w ->
  length (response_values (exec' evs w)) = completions (exec' evs w).
Proof.
  revert w. induction evs as [|ev evs IH]; intros w HS Hclean Hcount;
    cbn [exec]; [exact Hcount|].
  inversion Hclean as [|? ? Hev Hrest]; subst.
  apply IH; [apply step_Sound; exact HS | exact Hrest |].
  apply (@step_counted pts ev w HS Hev Hcount).
Qed.

(** C7 (as the code has it). A completion that carries either a protocol
    error, or a response whose datatype resolves and whose value casts out,
    makes the handler append exactly one outcome: a [DecodedValue] for the
    response, a [ProtocolError] for the error.  In a run all of whose
    completions are such, whatever the order of the events, the number of
    response values equals the number of completions delivered at every
    moment. *)
Theorem clean_completions_are_counted (pts : list Point) (interval : Z)
    (evs : list Ev) (w0 : W) :
  PrairieDog_init interval (ReadPointListApplication_init Any PyValue ErrorPDU pts)
    = Return w0 ->
  Forall (clean_event get_datatype cast_out) evs ->
  (forall (iocb : IOCB Any ErrorPDU) (v : W),
      clean get_datatype cast_out (ioResponse iocb, ioError iocb) ->
      exists o,
        complete iocb v
        = Return (deferred Fn_next_request (response_values_append o v))
        /\ match o with
           | DecodedValue _ _ => ioResponse iocb <> None /\ ioError iocb = None
           | ProtocolError _ err => ioError iocb = Some err /\ ioResponse iocb = None
           end)
  /\ (let w := run' evs w0 in
      length (response_values w) = completions w).
Proof.
  intros Hinit Hclean. split.
  - intros iocb v Hc. unfold clean in Hc.
    destruct (outcome_of get_datatype cast_out (ioResponse iocb, ioError iocb))
      as [o|] eqn:Ho; [|contradiction].
    exists o. split; [apply complete_request_clean; exact Ho|].
    unfold outcome_of in Ho.
    destruct (ioResponse iocb) as [apdu|], (ioError iocb) as [err|];
      try discriminate.
    + destruct (get_datatype _ _); [|discriminate].
      destruct (decode_value _ _ _); [|discriminate].
      injection Ho as <-. split; [discriminate | reflexivity].
    + injection Ho as <-. auto.
  - cbv zeta. unfold run.
    apply (exec_counted (Sound_start _ _ Hinit) Hclean).
    destruct (PrairieDog_init_Return _ _ Hinit) as (d & ->). reflexivity.
Qed.

(** *** The diagnostic *)

Lemma step_diagnostic (pts : list Point) (ev : Ev) (w : W) :
  Sound' pts w ->
  stderr w = [] \/ (stderr w = [msg] /\ running w = false) ->
  stderr (step' ev w) = []
  \/ (stderr (step' ev w) = [msg] /\ running (step' ev w) = false).
Proof.
  intros (Hcb & _ & _) HD.
  destruct ev as [status | i r |].
  - cbn [step]. destruct (running w && task_installed w) eqn:Hrun;
      [|exact HD].
    apply andb_prop in Hrun. destruct Hrun as (Hrun & _).
    destruct HD as [He | (_ & Hr)]; [|congruence].
    destruct (Z.eq_dec status 0) as [-> | Hs].
    + destruct (tick_success w) as (_ & _ & Hse & _).
      left. rewrite Hse. exact He.
    + destruct (tick_no_success w Hs)
        as (_ & _ & [(_ & _ & Hse) | (_ & Hr & Hse)]).
      * left. rewrite Hse. exact He.
      * right. rewrite Hse, He. split; [reflexivity | exact Hr].
  - destruct (nth_error (in_flight w) i) as [iocb|] eqn:Hn.
    + assert (Hi : ioCallback iocb = [Cb_complete_request]).
      { rewrite Forall_forall in Hcb. apply Hcb.
        apply nth_error_In with i. exact Hn. }
      rewrite (step_completion i r w Hn Hi). cbv zeta.
      set (w1 := log _ _).
      destruct (complete _ w1) as [w2|e] eqn:Hc.
      * destruct (complete_request_frame _ _ _ _ Hc)
          as (_ & _ & Hr & _ & _ & Hse & _).
        rewrite Hr, Hse. exact HD.
      * exact HD.
    + rewrite (step_completion_none i r w Hn). exact HD.
  - cbn [step]. destruct (deferred_fns w) as [|fn rest]; [exact HD|].
    destruct fn. cbn [call_deferred]. unfold next_request. fields.
    destruct (point_queue w) as [|p q].
    + fields. destruct HD as [He | (He & _)]; [left; exact He|].
      right. split; [exact He | reflexivity].
    + destruct (build p); exact HD.
Qed.

Lemma exec_diagnostic (pts : list Point) (evs : list Ev) (w : W) :
  Sound' pts w ->
  stderr w = [] \/ (stderr w = [msg] /\ running w = false) ->
  stderr (exec' evs w) = []
  \/ (stderr (exec' evs w) = [msg] /\ running (exec' evs w) = false).
Proof.
  revert w. induction evs as [|ev evs IH]; intros w HS HD; cbn [exec];
    [exact HD|].
  apply IH; [apply step_Sound; exact HS|].
  apply (@step_diagnostic pts ev w HS HD).
Qed.

(** X9. In every run, for every poll interval and whatever the events,
    standard error is either empty or holds the registration failure
    diagnostic exactly once, and when it holds it the loop has been
    stopped. *)
Theorem diagnostic_written_at_most_once (pts : list Point) (interval : Z)
    (evs : list Ev) (w0 : W) :
  PrairieDog_init interval (ReadPointListApplication_init Any PyValue ErrorPDU pts)
    = Return w0 ->
  let w := run' evs w0 in
  stderr w = [] \/ (stderr w = [msg] /\ running w = false).
Proof.
  intros Hinit w. unfold w, run.
  apply (exec_diagnostic evs (Sound_start _ _ Hinit)).
  left. destruct (PrairieDog_init_Return _ _ Hinit) as (d & ->). reflexivity.
Qed.

(** *** The budget of unsuccessful polls *)

Lemma failed_polls_snoc (tr : list (Label Any ErrorPDU)) l :
  failed_polls (tr ++ [l])
  = failed_polls tr
    + match l with
      | LPoll _ _ status => if (status =? 0)%Z then 0 else 1
      | _ => 0
      end.
Proof.
  unfold failed_polls. rewrite filter_app, length_app. f_equal.
  destruct l as [status | fn | iocb]; cbn; try reflexivity.
  destruct (status =? 0)%Z; reflexivity.
Qed.

Lemma step_Budget (pts : list Point) (ev : Ev) (w : W) :
  Sound' pts w -> Budget w -> Budget (step' ev w).
Proof.
  intros (Hcb & _ & _) HB.
  destruct ev as [status | i r |].
  - cbn [step]. destruct (running w && task_installed w) eqn:Hrun;
      [|exact HB].
    apply andb_prop in Hrun. destruct Hrun as (Hrun & _).
    destruct HB as (HB & _). destruct (HB Hrun) as (He & Hd & Hf).
    destruct (tick_frame status w) as (_ & _ & _ & _ & _ & _ & _ & Htr).
    unfold Budget. cbv zeta. rewrite Htr, failed_polls_snoc.
    destruct (Z.eq_dec status 0) as [-> | Hs].
    + destruct (tick_success w) as (_ & Hr & Hse & Hde).
      cbn [Z.eqb]. rewrite Nat.add_0_r, Hr, Hse, Hde. split.
      * intros _. repeat split; assumption.
      * intro H. congruence.
    + destruct (status =? 0)%Z eqn:E; [apply Z.eqb_eq in E; contradiction|].
      rewrite Nat.add_1_r.
      destruct (tick_no_success w Hs)
        as (_ & Hde & [(Hz & Hr & Hse) | (Hz & Hr & Hse)]);
        rewrite Hr, Hse, Hde, Hd, <- decays_S; rewrite Hd, <- decays_S in Hz.
      * split; [|intro H; congruence].
        intros _. repeat split; [exact He|].
        apply decays_10_stop; assumption.
      * split; [intro H; discriminate H|].
        intros _. right. rewrite He. split; [reflexivity|].
        destruct (Nat.eq_dec (S (failed_polls (trace w))) 10) as [E10|N10];
          [exact E10|].
        rewrite decays_from_10 in Hz by lia. discriminate Hz.
  - destruct (nth_error (in_flight w) i) as [iocb|] eqn:Hn.
    + assert (Hi : ioCallback iocb = [Cb_complete_request]).
      { rewrite Forall_forall in Hcb. apply Hcb.
        apply nth_error_In with i. exact Hn. }
      rewrite (step_completion i r w Hn Hi). cbv zeta.
      set (w1 := log _ _).
      assert (B1 : Budget w1).
      { unfold Budget, w1. fields. cbv zeta. rewrite failed_polls_snoc.
        rewrite Nat.add_0_r. exact HB. }
      destruct (complete _ w1) as [w2|e] eqn:Hc; [|exact B1].
      destruct (complete_request_frame _ _ _ _ Hc)
        as (_ & _ & Hr & _ & _ & Hse & _ & _ & Htr).
      destruct (complete_request_keeps_task _ _ _ _ Hc) as (_ & Hde).
      unfold Budget. rewrite Hr, Hse, Htr, Hde. exact B1.
    + rewrite (step_completion_none i r w Hn). exact HB.
  - cbn [step]. destruct (deferred_fns w) as [|fn rest]; [exact HB|].
    destruct fn. cbn [call_deferred]. unfold next_request. fields.
    assert (B1 : forall q,
               Budget (set_point_queue q
                         (log (LDeferred Any ErrorPDU Fn_next_request)
                            (set_deferred_fns rest w)))).
    { intro q. unfold Budget. fields. cbv zeta. rewrite failed_polls_snoc.
      rewrite Nat.add_0_r. exact HB. }
    destruct (point_queue w) as [|p q].
    + unfold Budget. fields. cbv zeta. rewrite failed_polls_snoc.
      rewrite Nat.add_0_r. split; [intro H; discriminate H|].
      intros _. destruct HB as (HB1 & HB2).
      destruct (running w); [|apply HB2; reflexivity].
      left. destruct (HB1 eq_refl) as (He & _ & Hf). split; assumption.
    + destruct (build p).
      * unfold Budget. fields. exact (B1 q).
      * exact (B1 q).
Qed.

Lemma exec_Budget (pts : list Point) (evs : list Ev) (w : W) :
  Sound' pts w -> Budget w -> Budget (exec' evs w).
Proof.
  revert w. induction evs as [|ev evs IH]; intros w HS HB; cbn [exec];
    [exact HB|].
  apply IH; [apply step_Sound; exact HS|].
  apply (@step_Budget pts ev w HS HB).
Qed.

(** X2. In every run of [main] (poll interval 500), at every moment and
    whatever the order of the events, at most ten polls have seen a status
    other than success, whether before or after a successful poll; the
    diagnostic is on standard error exactly when they are ten, and then the
    loop has been stopped. *)
Theorem at_most_ten_unsuccessful_polls (pts : list Point) (evs : list Ev)
    (w0 : W) :
  PrairieDog_init 500 (ReadPointListApplication_init Any PyValue ErrorPDU pts)
    = Return w0 ->
  let w := run' evs w0 in
  failed_polls (trace w) <= 10
  /\ (stderr w = [msg] <-> failed_polls (trace w) = 10)
  /\ (failed_polls (trace w) = 10 -> running w = false).
Proof.
  intros Hinit w.
  assert (HB : Budget w).
  { unfold w, run. apply (exec_Budget evs (Sound_start _ _ Hinit)).
    rewrite PrairieDog_init_500 in Hinit. injection Hinit as <-.
    unfold Budget. fields. cbv zeta. split.
    - intros _. repeat split. cbn. lia.
    - intro H. discriminate H. }
  destruct HB as (HB1 & HB2).
  destruct (running w) eqn:Hrun.
  - destruct (HB1 eq_refl) as (He & _ & Hf).
    split; [lia|]. split; [split|]; intro H; try lia.
    rewrite He in H. discriminate H.
  - split; [|split; [|reflexivity]].
    + destruct (HB2 eq_refl) as [(_ & Hf) | (_ & Hf)]; lia.
    + destruct (HB2 eq_refl) as [(He & Hf) | (He & Hf)]; split; intro H;
        try lia; try assumption.
      rewrite He in H. discriminate H.
Qed.

(** *** The reads between two polls *)

Local Abbreviation answers' := (answers get_datatype cast_out).
Local Abbreviation Reading' := (Reading get_datatype cast_out).
Local Abbreviation Idling' := (Idling get_datatype cast_out).

Lemma answers_snoc (tr : list (Label Any ErrorPDU)) l :
  answers' (tr ++ [l]) = answers' tr ++ answers' [l].
Proof. unfold answers. apply flat_map_app. Qed.

Lemma combine_snoc (A B : Type) (l : list A) (l' : list B) x y :
  nth_error l (length l') = Some x ->
  combine l (l' ++ [y]) = combine l l' ++ [(x, y)].
Proof.
  revert l. induction l' as [|b l' IH]; intros [|a l] H; cbn in *;
    try discriminate.
  - injection H as ->. destruct l; reflexivity.
  - f_equal. apply IH. exact H.
Qed.

Lemma combine_nil (A B : Type) (l : list A) : combine l (@nil B) = [].
Proof. destruct l; reflexivity. Qed.

(** The call of the posted [next_request], on an empty queue and on a
    point that parses. *)
Lemma step_advance_nil (w : W) :
  deferred_fns w = [Fn_next_request] ->
  point_queue w = [] ->
  step' CallDeferred w
  = stop (log (LDeferred Any ErrorPDU Fn_next_request) (set_deferred_fns [] w)).
Proof.
  intros Hd Hq. cbn [step]. rewrite Hd. cbn [call_deferred].
  unfold next_request. fields. rewrite Hq. reflexivity.
Qed.

Lemma step_advance_cons (w : W) p q request :
  deferred_fns w = [Fn_next_request] ->
  point_queue w = p :: q ->
  build p = Return request ->
  step' CallDeferred w
  = request_io (new_iocb Any ErrorPDU request)
      (set_point_queue q
         (log (LDeferred Any ErrorPDU Fn_next_request)
            (set_deferred_fns [] w))).
Proof.
  intros Hd Hq Hb. cbn [step]. rewrite Hd. cbn [call_deferred].
  unfold next_request. fields. rewrite Hq, Hb. reflexivity.
Qed.

(** The completion of the one request in flight, when it is clean. *)
Lemma step_completion_clean (w : W) request r o :
  in_flight w = [new_iocb Any ErrorPDU request] ->
  outcome_of get_datatype cast_out r = Some o ->
  step' (Completion 0 r) w
  = deferred Fn_next_request
      (response_values_append o
         (log (LCompletion (completed (new_iocb Any ErrorPDU request) r))
            (count_completion (set_in_flight [] w)))).
Proof.
  intros Hf Ho.
  assert (Hn : nth_error (in_flight w) 0
               = Some (new_iocb Any ErrorPDU request)).
  { rewrite Hf. reflexivity. }
  rewrite (step_completion 0 r w Hn eq_refl). cbv zeta.
  rewrite Hf. change (remove_at 0 [new_iocb Any ErrorPDU request]) with
    (@nil (IOCB Any ErrorPDU)).
  rewrite (@complete_request_clean _ _ _ get_datatype cast_out _ _ o);
    [reflexivity|].
  destruct r as [a b]. exact Ho.
Qed.

Section Between_polls.

Variable req : Point -> ReadPropertyRequest.
Variable pts : list Point.
Hypothesis Hparse : forall p, In p pts -> build p = Return (req p).

Lemma step_Reading (ev : Ev) (w : W) :
  Reading' req pts w ->
  is_tick ev = false ->
  clean_event get_datatype cast_out ev ->
  Reading' req pts (step' ev w).
Proof.
  intros HR Htick Hclean.
  pose proof HR as (Hse & Hlen & Hans & done & Hpts & Hreq & Hdone & Hph).
  destruct ev as [status | i r |]; [discriminate Htick | |].
  - destruct Hph as [(Hd & Hf & Hr) | [(Hd & Hr & done' & p & Hdn & Hf)
                                      | (Hd & Hf & Hr & Hq)]].
    + rewrite step_completion_none
        by (rewrite Hf; destruct i; reflexivity).
      exact HR.
    + destruct i as [|i].
      * cbn [clean_event] in Hclean. unfold clean in Hclean.
        destruct (outcome_of get_datatype cast_out r) as [o|] eqn:Ho;
          [|contradiction].
        rewrite (step_completion_clean w r Hf Ho).
        rewrite Hf in Hdone. cbn [length] in Hdone.
        assert (Hc : length done' = completions w).
        { rewrite Hdn, length_app in Hdone. cbn [length] in Hdone. lia. }
        unfold Reading. fields. cbn [completed new_iocb].
        split; [exact Hse|]. split; [rewrite length_app; cbn [length]; lia|].
        split.
        -- rewrite answers_snoc, Hans. unfold answers.
           destruct r as [a b].
           cbn [flat_map completed new_iocb ioResponse ioError ioRequest
                fst snd].
           rewrite Ho, app_nil_r.
           symmetry. apply combine_snoc.
           rewrite Hlen, <- Hc, Hpts, Hdn, <- app_assoc, map_app.
           rewrite nth_error_app2 by (rewrite length_map; lia).
           rewrite length_map, Nat.sub_diag. reflexivity.
        -- exists done. repeat split; try assumption; [lia|].
           left. rewrite Hd. repeat split; assumption.
      * rewrite step_completion_none
          by (rewrite Hf; destruct i; reflexivity).
        exact HR.
    + rewrite step_completion_none
        by (rewrite Hf; destruct i; reflexivity).
      exact HR.
  - destruct Hph as [(Hd & Hf & Hr) | [(Hd & Hr & done' & p & Hdn & Hf)
                                      | (Hd & Hf & Hr & Hq)]].
    + destruct (point_queue w) as [|p q] eqn:Hq.
      * rewrite (step_advance_nil w Hd Hq).
        unfold Reading. fields.
        split; [exact Hse|]. split; [exact Hlen|]. split.
        -- rewrite answers_snoc, Hans. cbn. apply app_nil_r.
        -- exists done. rewrite Hq, Hf. rewrite Hf in Hdone.
           repeat split; try assumption.
           right. right. repeat split; reflexivity.
      * assert (Hb : build p = Return (req p)).
        { apply Hparse. rewrite Hpts. apply in_or_app. right. left.
          reflexivity. }
        rewrite (step_advance_cons w Hd Hq Hb).
        unfold Reading. fields. cbn [new_iocb ioRequest].
        split; [exact Hse|]. split; [exact Hlen|]. split.
        -- rewrite answers_snoc, Hans. cbn. apply app_nil_r.
        -- exists (done ++ [p]). rewrite Hf. rewrite Hf in Hdone.
           cbn [length app] in *. split; [|split; [|split]].
           ++ rewrite <- app_assoc. exact Hpts.
           ++ rewrite map_app, Hreq. reflexivity.
           ++ rewrite length_app. cbn [length]. lia.
           ++ right. left. repeat split; try assumption.
              exists done, p. split; reflexivity.
    + cbn [step]. rewrite Hd. exact HR.
    + cbn [step]. rewrite Hd. exact HR.
Qed.

Lemma exec_Reading (evs : list Ev) (w : W) :
  Reading' req pts w ->
  Forall (fun ev => is_tick ev = false) evs ->
  Forall (clean_event get_datatype cast_out) evs ->
  Reading' req pts (exec' evs w).
Proof.
  revert w. induction evs as [|ev evs IH]; intros w HR Ht Hc; cbn [exec];
    [exact HR|].
  inversion Ht as [|? ? Ht1 Ht2]; subst.
  inversion Hc as [|? ? Hc1 Hc2]; subst.
  apply IH; [|exact Ht2 | exact Hc2].
  apply step_Reading; assumption.
Qed.

Lemma Idling_other (ev : Ev) (w : W) :
  Idling' pts w -> is_tick ev = false -> step' ev w = w.
Proof.
  intros (_ & Hd & Hf & _) Ht.
  destruct ev as [status | i r |]; [discriminate Ht | |].
  - apply step_completion_none. rewrite Hf. destruct i; reflexivity.
  - cbn [step]. rewrite Hd. reflexivity.
Qed.

Lemma exec_Idling_other (evs : list Ev) (w : W) :
  Idling' pts w ->
  Forall (fun ev => is_tick ev = false) evs ->
  exec' evs w = w.
Proof.
  intros HI Ht. induction Ht as [|ev evs Hev _ IH]; cbn [exec];
    [reflexivity|].
  rewrite (Idling_other ev HI Hev). exact IH.
Qed.

Lemma Idling_fail (status : Z) (w : W) :
  Idling' pts w -> status <> 0%Z -> Idling' pts (step' (Tick status) w).
Proof.
  intros HI Hs. pose proof HI as (Hti & Hd & Hf & Hreq & Hrv & Hq & Hc & Ha & Hst).
  cbn [step]. rewrite Hti, andb_true_r.
  destruct (running w) eqn:Hrun; [|exact HI].
  destruct (tick_frame status w)
    as (Hq' & Hrv' & Hf' & Hreq' & Hc' & Hti' & _ & Htr').
  destruct (tick_no_success w Hs) as (Hd' & _ & Hcase).
  unfold Idling. rewrite Hti', Hd', Hf', Hreq', Hrv', Hq', Hc', Htr'.
  rewrite answers_snoc, Ha.
  repeat split; try assumption.
  destruct Hcase as [(_ & Hr' & Hse') | (_ & Hr' & Hse')];
    rewrite Hr', Hse'.
  - rewrite Hrun. exact Hst.
  - rewrite Hst. discriminate.
Qed.

Lemma Idling_success (w : W) :
  Idling' pts w ->
  running w = true ->
  let w' := step' (Tick 0) w in
  Reading' req pts w'
  /\ deferred_fns w' = [Fn_next_request] /\ in_flight w' = []
  /\ running w' = true /\ point_queue w' = pts.
Proof.
  intros (Hti & Hd & Hf & Hreq & Hrv & Hq & Hc & Ha & Hst) Hrun w'.
  unfold w'. cbn [step]. rewrite Hti, Hrun. cbn [andb].
  rewrite Hrun in Hst.
  destruct (tick_frame 0 w)
    as (Hq' & Hrv' & Hf' & Hreq' & Hc' & _ & _ & Htr').
  destruct (tick_success w) as (Hd' & Hr' & Hse' & _).
  unfold Reading.
  rewrite Hd', Hf', Hreq', Hrv', Hq', Hc', Htr', Hr', Hse'.
  rewrite Hd, Hf, Hreq, Hrv, Hq, Hc, Hst, Hrun, answers_snoc, Ha.
  rewrite combine_nil. repeat split.
  exists []. repeat split. left. repeat split.
Qed.

Lemma exec_between_polls (evs : list Ev) (w : W) :
  Idling' pts w ->
  no_poll_after_success evs ->
  Forall (clean_event get_datatype cast_out) evs ->
  Idling' pts (exec' evs w) \/ Reading' req pts (exec' evs w).
Proof.
  revert w. induction evs as [|ev evs IH]; intros w HI Hno Hclean;
    cbn [exec]; [left; exact HI|].
  inversion Hclean as [|? ? Hc1 Hc2]; subst.
  destruct ev as [status | i r |].
  - cbn [no_poll_after_success] in Hno.
    destruct (status =? 0)%Z eqn:E.
    + apply Z.eqb_eq in E. subst status.
      destruct (running w) eqn:Hrun.
      * right. destruct (Idling_success HI Hrun) as (HR & _).
        apply exec_Reading; assumption.
      * left. assert (Hs : step' (Tick 0) w = w).
        { cbn [step]. rewrite Hrun. reflexivity. }
        rewrite Hs, (exec_Idling_other HI Hno). exact HI.
    + apply Z.eqb_neq in E. apply IH; [|exact Hno | exact Hc2].
      apply Idling_fail; assumption.
  - rewrite (@Idling_other (Completion i r) w HI eq_refl).
    apply IH; assumption.
  - rewrite (@Idling_other CallDeferred w HI eq_refl).
    apply IH; assumption.
Qed.

(** What the two invariants say of a state. *)
Lemma between_polls_facts (w : W) :
  Idling' pts w \/ Reading' req pts w ->
  length (in_flight w) <= 1
  /\ (exists done,
        pts = done ++ point_queue w
        /\ requests_sent w = map req done
        /\ length done = completions w + length (in_flight w))
  /\ length (response_values w) = completions w
  /\ answers' (trace w) = combine (map req pts) (response_values w)
  /\ (running w = false -> stderr w = [] ->
      requests_sent w = map req pts
      /\ length (response_values w) = length pts).
Proof.
  intros [(Hti & Hd & Hf & Hreq & Hrv & Hq & Hc & Ha & Hst)
         | (Hse & Hlen & Hans & done & Hpts & Hreq & Hdone & Hph)].
  - rewrite Hf, Hreq, Hrv, Hq, Hc, Ha, combine_nil. cbn [length].
    split; [lia|]. split; [exists []; repeat split|].
    split; [reflexivity|]. split; [reflexivity|].
    intros Hr He. rewrite Hr in Hst. contradiction.
  - split; [|split; [|split; [exact Hlen | split; [exact Hans|]]]].
    + destruct Hph as [(_ & Hf & _) | [(_ & _ & d' & p & _ & Hf)
                                      | (_ & Hf & _)]];
        rewrite Hf; cbn [length]; lia.
    + exists done. repeat split; assumption.
    + intros Hr _.
      destruct Hph as [(_ & _ & Hr') | [(_ & Hr' & _) | (_ & Hf & _ & Hq)]];
        try congruence.
      rewrite Hq, app_nil_r in Hpts. subst done.
      rewrite Hf in Hdone. cbn [length] in Hdone.
      split; [exact Hreq | lia].
Qed.

(** From the idle driver with its [next_request] posted, the reads of the
    queued points, each completed before the next, and the call that finds
    the queue empty stop the loop. *)
Lemma exec_reads (rs : list (option (ReadPropertyACK Any) * option ErrorPDU)) :
  forall w : W,
    (forall p, In p (point_queue w) -> build p = Return (req p)) ->
    deferred_fns w = [Fn_next_request] ->
    in_flight w = [] ->
    Forall (clean get_datatype cast_out) rs ->
    length rs = length (point_queue w) ->
    running (exec' (reads rs ++ [CallDeferred]) w) = false.
Proof.
  induction rs as [|r rs IH]; intros w Hp Hd Hf Hclean Hlen.
  - destruct (point_queue w) as [|p q] eqn:Hq; [|discriminate Hlen].
    cbn [reads flat_map app exec].
    rewrite (step_advance_nil w Hd Hq). reflexivity.
  - destruct (point_queue w) as [|p q] eqn:Hq; [discriminate Hlen|].
    inversion Hclean as [|? ? Hc1 Hc2]; subst.
    unfold clean in Hc1.
    destruct (outcome_of get_datatype cast_out r) as [o|] eqn:Ho;
      [|contradiction].
    change (reads (r :: rs) ++ [CallDeferred])
      with (CallDeferred :: Completion 0 r :: (reads rs ++ [CallDeferred])).
    cbn [exec].
    rewrite (step_advance_cons w Hd Hq (Hp p (or_introl eq_refl))).
    set (w1 := request_io _ _).
    assert (Hf1 : in_flight w1 = [new_iocb Any ErrorPDU (req p)]).
    { unfold w1. fields. rewrite Hf. reflexivity. }
    rewrite (step_completion_clean w1 r Hf1 Ho).
    apply IH.
    + unfold w1. fields. intros p' Hin. apply Hp. right. exact Hin.
    + unfold w1. fields. reflexivity.
    + fields. reflexivity.
    + exact Hc2.
    + unfold w1. fields. cbn [length] in Hlen. lia.
Qed.

(** Polls that see no success and stay within the budget leave the loop
    running and the driver untouched. *)
Lemma exec_fails (fails : list Z) :
  forall w : W,
    Forall (fun s => s <> 0%Z) fails ->
    Sound' pts w -> Idling' pts w -> Budget w ->
    running w = true ->
    failed_polls (trace w) + length fails < 10 ->
    Idling' pts (exec' (map Tick fails) w)
    /\ running (exec' (map Tick fails) w) = true.
Proof.
  induction fails as [|s fails IH]; intros w Hf HS HI HB Hrun Hlen;
    cbn [map exec]; [split; assumption|].
  inversion Hf as [|? ? Hs Hf']; subst.
  pose proof (@step_Sound pts (Tick s) w HS) as HS1.
  pose proof (Idling_fail HI Hs) as HI1.
  pose proof (@step_Budget pts (Tick s) w HS HB) as HB1.
  assert (Hcount : failed_polls (trace (step' (Tick s) w))
                   = S (failed_polls (trace w))).
  { cbn [step]. destruct HI as (Hti & _). rewrite Hti, Hrun. cbn [andb].
    destruct (tick_frame s w) as (_ & _ & _ & _ & _ & _ & _ & Htr).
    rewrite Htr, failed_polls_snoc.
    destruct (s =? 0)%Z eqn:E; [apply Z.eqb_eq in E; contradiction|].
    apply Nat.add_1_r. }
  cbn [length] in Hlen.
  apply IH; try assumption; [|lia].
  destruct (running (step' (Tick s) w)) eqn:Hrun1; [reflexivity|].
  destruct HB1 as (_ & HB1). destruct (HB1 Hrun1) as [(He & _) | (_ & H10)].
  - destruct HI1 as (_ & _ & _ & _ & _ & _ & _ & _ & Hst).
    rewrite Hrun1 in Hst. contradiction.
  - lia.
Qed.

Lemma no_poll_after_success_run (fails : list Z) (rest : list Ev) :
  Forall (fun s => s <> 0%Z) fails ->
  Forall (fun ev => is_tick ev = false) rest ->
  no_poll_after_success (map Tick fails ++ Tick 0 :: rest).
Proof.
  intros Hf Hrest. induction Hf as [|s fails Hs _ IH]; cbn; [exact Hrest|].
  destruct (s =? 0)%Z eqn:E; [apply Z.eqb_eq in E; contradiction|].
  exact IH.
Qed.

Lemma reads_no_tick (rs : list (option (ReadPropertyACK Any) * option ErrorPDU)) :
  Forall (fun ev : Ev => is_tick ev = false) (reads rs ++ [CallDeferred]).
Proof.
  induction rs as [|r rs IH]; cbn; repeat constructor. exact IH.
Qed.

Lemma reads_clean (rs : list (option (ReadPropertyACK Any) * option ErrorPDU)) :
  Forall (clean get_datatype cast_out) rs ->
  Forall (clean_event get_datatype cast_out) (reads rs ++ [CallDeferred]).
Proof.
  intro H. induction H as [|r rs Hr _ IH]; cbn; repeat constructor;
    assumption.
Qed.

Lemma Idling_start (w0 : W) :
  PrairieDog_init 500 (ReadPointListApplication_init Any PyValue ErrorPDU pts)
    = Return w0 ->
  Idling' pts (set_running true w0) /\ Budget (set_running true w0).
Proof.
  intro Hinit. rewrite PrairieDog_init_500 in Hinit. injection Hinit as <-.
  split.
  - unfold Idling. fields. repeat split.
  - unfold Budget. fields. cbv zeta. split.
    + intros _. repeat split. cbn. lia.
    + intro H. discriminate H.
Qed.

(** C1 (as the code has it). Let every configured point parse, [req p]
    being its request, and let every completion carry either a protocol
    error or a response whose datatype resolves and whose value casts out.
    In every run in which no poll is served after the poll that saw the
    registration succeeded, at every moment: at most one request is in
    flight; the requests submitted are those of a prefix of the point list,
    in list order, each completed or in flight, so that a request is
    submitted only when all earlier ones are completed; response value [i]
    is what the completion of the request of point [i] left; and once the
    driver has stopped the loop every point was requested and there are as
    many response values as points.  When a poll before the tenth sees the
    success and every request is completed before the next is submitted,
    the driver does stop the loop. *)
Theorem reads_in_order_between_polls (w0 : W) :
  PrairieDog_init 500 (ReadPointListApplication_init Any PyValue ErrorPDU pts)
    = Return w0 ->
  (forall evs : list Ev,
      no_poll_after_success evs ->
      Forall (clean_event get_datatype cast_out) evs ->
      let w := run' evs w0 in
      length (in_flight w) <= 1
      /\ (exists done,
            pts = done ++ point_queue w
            /\ requests_sent w = map req done
            /\ length done = completions w + length (in_flight w))
      /\ length (response_values w) = completions w
      /\ answers' (trace w) = combine (map req pts) (response_values w)
      /\ (running w = false -> stderr w = [] ->
          requests_sent w = map req pts
          /\ length (response_values w) = length pts))
  /\ (forall (fails : list Z)
             (rs : list (option (ReadPropertyACK Any) * option ErrorPDU)),
        Forall (fun s => s <> 0%Z) fails ->
        length fails < 10 ->
        Forall (clean get_datatype cast_out) rs ->
        length rs = length pts ->
        let w := run' (map Tick fails ++ Tick 0 :: reads rs ++ [CallDeferred])
                   w0 in
        running w = false /\ stderr w = []
        /\ requests_sent w = map req pts
        /\ length (response_values w) = length pts
        /\ answers' (trace w) = combine (map req pts) (response_values w)).
Proof.
  intro Hinit. destruct (Idling_start Hinit) as (HI & HB).
  pose proof (Sound_start _ _ Hinit) as HS.
  split.
  - intros evs Hno Hclean w. apply between_polls_facts.
    apply exec_between_polls; assumption.
  - intros fails rs Hf Hlen Hclean Hrs w.
    unfold w, run. rewrite exec_app. cbn [exec].
    assert (Hrun0 : running (set_running true w0) = true) by reflexivity.
    assert (H0 : failed_polls (trace (set_running true w0)) + length fails
                 < 10).
    { destruct HI as (_ & _ & _ & _ & _ & _ & _ & _ & _).
      rewrite PrairieDog_init_500 in Hinit. injection Hinit as <-.
      cbn. exact Hlen. }
    destruct (exec_fails Hf HS HI HB Hrun0 H0) as (HI1 & Hrun1).
    set (w1 := exec' (map Tick fails) (set_running true w0)) in *.
    destruct (Idling_success HI1 Hrun1) as (HR2 & Hd2 & Hf2 & Hrun2 & Hq2).
    set (w2 := step' (Tick 0) w1) in *.
    pose proof (exec_Reading HR2 (reads_no_tick rs) (reads_clean Hclean))
      as HR3.
    assert (Hstop : running (exec' (reads rs ++ [CallDeferred]) w2) = false).
    { apply exec_reads; try assumption.
      - rewrite Hq2. exact Hparse.
      - rewrite Hq2. exact Hrs. }
    pose proof HR3 as (Hse3 & _).
    destruct (between_polls_facts (or_intror HR3))
      as (_ & _ & _ & Hans & Hfin).
    destruct (Hfin Hstop Hse3) as (Hreq & Hl).
    repeat split; assumption.
Qed.

End Between_polls.

(** *** The driver has no guard *)

(** C9 (as the code has it). [next_request] has no re-entry guard: on a
    queue whose first point parses it returns normally and has handed one
    more request to the stack, whatever is in flight; it writes nothing to
    the standard error and leaves the loop as it is. *)
Theorem next_request_has_no_guard (w : W) p rest request :
  point_queue w = p :: rest ->
  build p = Return request ->
  exists w',
    advance w = Returned w'
    /\ in_flight w' = in_flight w ++ [new_iocb Any ErrorPDU request]
    /\ requests_sent w' = requests_sent w ++ [request]
    /\ point_queue w' = rest
    /\ running w' = running w
    /\ stderr w' = stderr w
    /\ response_values w' = response_values w.
Proof.
  intros Hq Hb. rewrite (next_request_cons w Hq), Hb.
  eexists. split; [reflexivity|]. fields. cbn [new_iocb ioRequest].
  repeat split; reflexivity.
Qed.

End Facts.

(** ** The point list of the sample, event by event *)

Module Scenario.

(** The texts that the stack of [Demo] resolves; any other text is no
    object identifier. *)
Definition ObjectIdentifier_value (obj_id : string) : result ObjectId :=
  if String.eqb obj_id "analogValue:1" || String.eqb obj_id "analogValue:2"
  then Return (Demo.ObjectIdentifier_value obj_id)
  else Raise (ValueError "unknown object type").

Definition Address_init (addr : string) : result Address :=
  if String.eqb addr EmptyString
  then Raise (ValueError "unrecognized format")
  else Return (MkAddress addr).

(** The request of a point whose texts parse. *)
Definition req (p : Point) : ReadPropertyRequest :=
  let '(addr, obj_id, prop_id) := p in
  MkRequest (Demo.ObjectIdentifier_value obj_id) prop_id (MkAddress addr).

Definition run (evs : list (Event Demo.Any Demo.ErrorPDU))
    (w : World Demo.Any Demo.PyValue Demo.ErrorPDU)
  : World Demo.Any Demo.PyValue Demo.ErrorPDU :=
  Interleaved.run ObjectIdentifier_value Address_init Demo.get_datatype
    Demo.cast_out evs w.

(** The oldest request is answered with a present value, or for a property
    the registry does not know. *)
Definition answered (instance payload : Z) : Event Demo.Any Demo.ErrorPDU :=
  Completion 0 (Some (Demo.ack_present instance payload), None).

Definition answered_unknown : Event Demo.Any Demo.ErrorPDU :=
  Completion 0 (Some Demo.ack_unknown, None).

(** The first request is in flight and the second point is queued. *)
Definition world_busy : World Demo.Any Demo.PyValue Demo.ErrorPDU :=
  run [Tick 0; CallDeferred] (Demo.world0 Demo.point_list).

(** The point list of the sample with an entry between its two points
    whose object identifier lacks the instance. *)
Definition point_list_typo : list Point :=
  [ ("10.0.1.14", "analogValue:1", "presentValue");
    ("10.0.1.14", "analogValue", "presentValue");
    ("10.0.1.14", "analogValue:2", "presentValue") ]%string.

End Scenario.

Ltac all_clean :=
  repeat (apply Forall_cons;
          [first [exact I
                 | let H := fresh "H" in
                   intro H; vm_compute in H; discriminate H]|]);
  apply Forall_nil.

Lemma Scenario_parse (p : Point) :
  In p Demo.point_list ->
  build_request Scenario.ObjectIdentifier_value Scenario.Address_init p
  = Return (Scenario.req p).
Proof. intros [<- | [<- | []]]; reflexivity. Qed.

(** C4, the run that shows the defect. The registration is seen to succeed
    at the first poll and the first request is not completed when the task
    is due again: [process_task] had suspended the task, the task manager
    installed it again, the second poll posts [next_request] a second time,
    and two requests are in flight. *)
Theorem poll_runs_again_after_success :
  let w0 := set_running true (Demo.world0 Demo.point_list) in
  let w := Scenario.run [Tick 0; CallDeferred; Tick 0; CallDeferred]
             (Demo.world0 Demo.point_list) in
  task_installed (process_task (begin_poll 0 (suspend_task w0))) = false
  /\ task_installed (tick 0 w0) = true
  /\ trace w = [LPoll Demo.Any Demo.ErrorPDU 0;
                LDeferred Demo.Any Demo.ErrorPDU Fn_next_request;
                LPoll Demo.Any Demo.ErrorPDU 0;
                LDeferred Demo.Any Demo.ErrorPDU Fn_next_request]
  /\ polls w = 2
  /\ length (in_flight w) = 2
  /\ requests_sent w = map Scenario.req Demo.point_list
  /\ completions w = 0
  /\ running w = true.
Proof. vm_compute. repeat split; reflexivity. Qed.

(** C1, witness: two unsuccessful polls, the successful one, and the two
    reads of the sample answered one after the other. *)
Lemma reads_in_order_between_polls_witness :
  let w := Scenario.run
             (map Tick [(-1)%Z; (-1)%Z] ++ Tick 0
              :: reads [(Some (Demo.ack_present 1 0), None);
                        (Some (Demo.ack_present 2 1), None)]
                 ++ [CallDeferred])
             (Demo.world0 Demo.point_list) in
  running w = false /\ stderr w = []
  /\ requests_sent w = map Scenario.req Demo.point_list
  /\ length (response_values w) = length Demo.point_list
  /\ answers Demo.get_datatype Demo.cast_out (trace w)
     = combine (map Scenario.req Demo.point_list) (response_values w).
Proof.
  refine (proj2 (@reads_in_order_between_polls Demo.Any Demo.PyValue
                   Demo.ErrorPDU Scenario.ObjectIdentifier_value
                   Scenario.Address_init Demo.get_datatype Demo.cast_out
                   Scenario.req Demo.point_list Scenario_parse
                   (Demo.world0 Demo.point_list) Demo_world0_init)
                [(-1)%Z; (-1)%Z]
                [(Some (Demo.ack_present 1 0), None);
                 (Some (Demo.ack_present 2 1), None)] _ _ _ _).
  - repeat constructor; discriminate.
  - cbn. lia.
  - repeat (apply Forall_cons;
            [intro H; vm_compute in H; discriminate H|]).
    apply Forall_nil.
  - reflexivity.
Defined.

(** C1, counterexample. The first read of the sample is answered for a
    property the registry does not know: the handler raises, nothing is
    recorded and nothing is posted; the next poll posts [next_request]
    again, the second read is answered and the driver stops the loop.  Two
    requests were sent, one value was recorded, and [main] prints the first
    point with the value of the second. *)
Lemma unknown_datatype_misaligns_the_results :
  let w := Scenario.run
             [Tick 0; CallDeferred; Scenario.answered_unknown;
              Tick 0; CallDeferred; Scenario.answered 2 5; CallDeferred]
             (Demo.world0 Demo.point_list) in
  running w = false /\ stderr w = []
  /\ point_queue w = [] /\ in_flight w = [] /\ deferred_fns w = []
  /\ requests_sent w = map Scenario.req Demo.point_list
  /\ completions w = 2
  /\ response_values w = [DecodedValue Demo.ErrorPDU (OtherClass "Real", 5%Z)]
  /\ dump Demo.point_list (response_values w)
     = [(("10.0.1.14", "analogValue:1", "presentValue")%string,
         DecodedValue Demo.ErrorPDU (OtherClass "Real", 5%Z))].
Proof. vm_compute. repeat split; reflexivity. Qed.

(** C7, witness: the count in the run of the sample in which a poll falls
    between the two reads. *)
Lemma clean_completions_are_counted_witness :
  let w := Scenario.run
             [Tick 0; CallDeferred; Tick 0; Scenario.answered 1 0;
              CallDeferred; CallDeferred; Scenario.answered 2 1]
             (Demo.world0 Demo.point_list) in
  length (response_values w) = completions w.
Proof.
  refine (proj2 (@clean_completions_are_counted Demo.Any Demo.PyValue
                   Demo.ErrorPDU Scenario.ObjectIdentifier_value
                   Scenario.Address_init Demo.get_datatype Demo.cast_out
                   Demo.point_list 500
                   [Tick 0; CallDeferred; Tick 0; Scenario.answered 1 0;
                    CallDeferred; CallDeferred; Scenario.answered 2 1]
                   (Demo.world0 Demo.point_list) Demo_world0_init _)).
  all_clean.
Defined.

(** C7, counterexample. After the completion of the first read, answered
    for a property the registry does not know, one completion was delivered
    and no outcome was recorded. *)
Lemma unknown_completion_leaves_no_outcome :
  let w := Scenario.run [Tick 0; CallDeferred; Scenario.answered_unknown]
             (Demo.world0 Demo.point_list) in
  completions w = 1 /\ response_values w = [].
Proof. vm_compute. split; reflexivity. Qed.

(** C9, witness: [next_request] called with the first request of the
    sample in flight. *)
Lemma next_request_has_no_guard_witness :
  exists w',
    next_request Scenario.ObjectIdentifier_value Scenario.Address_init
      Scenario.world_busy = Returned w'
    /\ in_flight w'
       = in_flight Scenario.world_busy
         ++ [new_iocb Demo.Any Demo.ErrorPDU
               (Scenario.req ("10.0.1.14", "analogValue:2", "presentValue")%string)]
    /\ requests_sent w'
       = requests_sent Scenario.world_busy
         ++ [Scenario.req ("10.0.1.14", "analogValue:2", "presentValue")%string]
    /\ point_queue w' = []
    /\ running w' = running Scenario.world_busy
    /\ stderr w' = stderr Scenario.world_busy
    /\ response_values w' = response_values Scenario.world_busy.
Proof.
  apply (@next_request_has_no_guard Demo.Any Demo.PyValue Demo.ErrorPDU
           Scenario.ObjectIdentifier_value Scenario.Address_init
           Scenario.world_busy
           ("10.0.1.14", "analogValue:2", "presentValue")%string []).
  - reflexivity.
  - reflexivity.
Defined.

(** C9, counterexample. With the first request in flight and the second
    point queued, [next_request] returns normally and the stack holds two
    requests at once; the loop keeps running and nothing is written to the
    standard error. *)
Lemma reentry_submits_a_second_request :
  length (in_flight Scenario.world_busy) = 1
  /\ match next_request Scenario.ObjectIdentifier_value Scenario.Address_init
             Scenario.world_busy with
     | Returned w' =>
         length (in_flight w') = 2 /\ length (requests_sent w') = 2
         /\ running w' = true /\ stderr w' = []
     | Threw _ _ => False
     end.
Proof. vm_compute. repeat split; reflexivity. Qed.


(** The entry that does not parse is taken from the queue and never
    requested. *)
Example malformed_point_is_dropped :
  let w := Scenario.run
             [Tick 0; CallDeferred; Scenario.answered 1 0; CallDeferred;
              Tick 0; CallDeferred]
             (Demo.world0 Scenario.point_list_typo) in
  point_queue w = []
  /\ requests_sent w = map Scenario.req Demo.point_list
  /\ length (in_flight w) = 1.
Proof. vm_compute. repeat split; reflexivity. Qed.

(** X2, witness: the registration succeeds at the first poll and then
    shows a failure at every later one; the tenth of them stops the loop
    with the first read still in flight. *)
Lemma at_most_ten_unsuccessful_polls_witness :
  let w := Scenario.run
             (Tick 0 :: CallDeferred :: map Tick (repeat (-1)%Z 10))
             (Demo.world0 Demo.point_list) in
  failed_polls (trace w) <= 10
  /\ (stderr w = [String.append "registration failed" newline]
      <-> failed_polls (trace w) = 10)
  /\ (failed_polls (trace w) = 10 -> running w = false).
Proof.
  apply (@at_most_ten_unsuccessful_polls Demo.Any Demo.PyValue Demo.ErrorPDU
           Scenario.ObjectIdentifier_value Scenario.Address_init
           Demo.get_datatype Demo.cast_out Demo.point_list).
  exact Demo_world0_init.
Defined.

(** The diagnostic of that run is written with a request in flight. *)
Example diagnostic_after_success :
  let w := Scenario.run
             (Tick 0 :: CallDeferred :: map Tick (repeat (-1)%Z 10))
             (Demo.world0 Demo.point_list) in
  stderr w = [String.append "registration failed" newline]
  /\ running w = false
  /\ length (in_flight w) = 1.
Proof. vm_compute. repeat split; reflexivity. Qed.

(** X9, witness: the run in which the registration never succeeds. *)
Lemma diagnostic_written_at_most_once_witness :
  let w := Scenario.run (map Tick (repeat (-1)%Z 12))
             (Demo.world0 Demo.point_list) in
  stderr w = []
  \/ (stderr w = [String.append "registration failed" newline]
      /\ running w = false).
Proof.
  apply (@diagnostic_written_at_most_once Demo.Any Demo.PyValue Demo.ErrorPDU
           Scenario.ObjectIdentifier_value Scenario.Address_init
           Demo.get_datatype Demo.cast_out Demo.point_list 500).
  exact Demo_world0_init.
Defined.

Unset Implicit Arguments.

End Interleaved.

(** * The fixed-order loop is one of the orders of events

    With texts that parse, every state that [loop] reaches is reached by
    [Interleaved.exec] under some order of events, the schedule of the task
    apart: what is proved of the runs of [loop] is proved of runs of the
    sample under the scheduling of the library. *)

Section Fixed_order.

Variables (Any PyValue ErrorPDU : Type).
Variable ObjectIdentifier_value : string -> ObjectId.
Variable get_datatype : string -> string -> option Datatype.
Variable cast_out : Any -> Datatype -> result PyValue.

Local Abbreviation W := (World Any PyValue ErrorPDU).
Local Abbreviation parsed := (fun obj_id => Return (ObjectIdentifier_value obj_id)).
Local Abbreviation address := (fun addr => Return (MkAddress addr)).

Lemma next_request_when_texts_parse (w : W) :
  Interleaved.next_request parsed address w
  = Interleaved.Returned (next_request ObjectIdentifier_value w).
Proof.
  unfold Interleaved.next_request, next_request.
  destruct (point_queue w) as [|[[addr obj_id] prop_id] rest]; reflexivity.
Qed.

Lemma next_request_install_task (w : W) :
  next_request ObjectIdentifier_value (install_task w)
  = install_task (next_request ObjectIdentifier_value w).
Proof.
  unfold next_request. cbn [install_task point_queue].
  destruct (point_queue w); reflexivity.
Qed.

Lemma complete_request_install_task (iocb : IOCB Any ErrorPDU) (w : W) :
  complete_request get_datatype cast_out iocb (install_task w)
  = match complete_request get_datatype cast_out iocb w with
    | Return w' => Return (install_task w')
    | Raise e => Raise e
    end.
Proof.
  unfold complete_request.
  destruct (ioResponse iocb) as [apdu|].
  - destruct (get_datatype _ _) as [datatype|]; [|reflexivity].
    destruct (decode_value cast_out datatype apdu); [|reflexivity].
    cbn [bind]. destruct (ioError iocb); reflexivity.
  - cbn [bind]. destruct (ioError iocb); reflexivity.
Qed.

Lemma trigger_install_task (cbs : list Callback) (iocb : IOCB Any ErrorPDU) :
  forall w : W,
    trigger get_datatype cast_out cbs iocb (install_task w)
    = match trigger get_datatype cast_out cbs iocb w with
      | Return w' => Return (install_task w')
      | Raise e => Raise e
      end.
Proof.
  induction cbs as [|[] cbs IH]; intro w; cbn [trigger]; [reflexivity|].
  rewrite complete_request_install_task.
  destruct (complete_request get_datatype cast_out iocb w) as [w1|e];
    cbn [bind]; [apply IH | reflexivity].
Qed.

Lemma tick_is_process_task (status : Z) (w : W) :
  Interleaved.tick status (install_task w)
  = install_task (process_task (begin_poll status w)).
Proof.
  destruct w. unfold Interleaved.tick, process_task.
  cbn [registrationStatus decay begin_poll suspend_task install_task
       set_decay].
  destruct (status =? 0)%Z; [reflexivity|].
  destruct (PyNum.eq_int (PyNum.sub_int decay0 1) 0); reflexivity.
Qed.

Lemma loop_is_an_order_of_events (fuel : nat) (env : Env Any ErrorPDU) :
  forall w : W,
    exists evs,
      Interleaved.exec parsed address get_datatype cast_out evs (install_task w)
      = install_task
          (last_world (loop ObjectIdentifier_value get_datatype cast_out
                         fuel env w)).
Proof.
  induction fuel as [|fuel IH]; intro w; [exists []; reflexivity|].
  cbn [loop]. unfold turn.
  destruct (running w) eqn:Hrun; cbn [negb]; [|exists []; reflexivity].
  destruct (deferred_fns w) as [|fn rest] eqn:Hd.
  - destruct (in_flight w) as [|iocb flight] eqn:Hf.
    + destruct (task_installed w) eqn:Hti; [|exists []; reflexivity].
      destruct (IH (process_task (begin_poll (observe env (polls w)) w)))
        as [evs Hevs].
      exists (Interleaved.Tick (observe env (polls w)) :: evs).
      cbn [Interleaved.exec Interleaved.step running task_installed
           install_task]. rewrite Hrun. cbn [andb].
      rewrite tick_is_process_task. exact Hevs.
    + set (r := respond env (completions w)).
      set (w1 := log (LCompletion (completed iocb r))
                   (count_completion (set_in_flight flight w))).
      assert (Hstep :
                Interleaved.step parsed address get_datatype cast_out
                  (Interleaved.Completion 0 r) (install_task w)
                = match trigger get_datatype cast_out
                          (ioCallback (completed iocb r)) (completed iocb r) w1
                  with
                  | Return w2 => install_task w2
                  | Raise _ => install_task w1
                  end).
      { cbn [Interleaved.step in_flight install_task]. rewrite Hf.
        cbn [nth_error].
        change (log (LCompletion (completed iocb r))
                  (count_completion
                     (set_in_flight (Interleaved.remove_at 0 (iocb :: flight))
                        (install_task w))))
          with (install_task w1).
        rewrite trigger_install_task.
        destruct (trigger get_datatype cast_out _ _ w1); reflexivity. }
      destruct (trigger get_datatype cast_out
                  (ioCallback (completed iocb r)) (completed iocb r) w1)
        as [w2|e] eqn:Htr.
      * destruct (IH w2) as [evs Hevs].
        exists (Interleaved.Completion 0 r :: evs).
        cbn [Interleaved.exec]. rewrite Hstep. exact Hevs.
      * exists [Interleaved.Completion 0 r].
        cbn [Interleaved.exec last_world]. exact Hstep.
  - destruct fn.
    destruct (IH (call_deferred ObjectIdentifier_value Fn_next_request
                    (log (LDeferred Any ErrorPDU Fn_next_request)
                       (set_deferred_fns rest w))))
      as [evs Hevs].
    exists (Interleaved.CallDeferred :: evs).
    cbn [Interleaved.exec Interleaved.step deferred_fns install_task].
    rewrite Hd. cbn [Interleaved.call_deferred].
    change (log (LDeferred Any ErrorPDU Fn_next_request)
              (set_deferred_fns rest (install_task w)))
      with (install_task (log (LDeferred Any ErrorPDU Fn_next_request)
                            (set_deferred_fns rest w))).
    rewrite next_request_when_texts_parse, next_request_install_task.
    exact Hevs.
Qed.

End Fixed_order.
